(** * Backtest pipeline of main.py: indicators, signals, trade simulation

    Shallow embedding of [simulate_trades_with_risk], [compute_indicators],
    [evaluate_signals], [load_strategy_config] and [get_polygon_data] of
    [src/main.py], and of [generate_pdf_report] of [src/pdfgen.py].

    Modelling conventions.
    - A DataFrame is the list of its rows, in row order.  A column cell that
      pandas would hold as NaN is [None].
    - A pandas [Timestamp] is an integer count of microseconds.
    - A Python exception is a [Raise] result.
    - Numbers.  The pipeline is embedded with every float an exact rational
      [Q], compared with [Qeq]/[Qle]: NaN, infinities and binary rounding
      are outside that model.  It carries the properties that do not depend
      on how an amount is rounded: which position is open, which branch
      labels a trade, the order of bars and trades, which rows are dropped,
      what is raised.  The trade simulator is embedded a second time in
      module [Double], on binary64 numbers with the operations of Python's
      [float]; what the program computes, to the last bit, is stated and
      proved there. *)

From Stdlib Require Import QArith Qround Qabs Lqa Sorting.Sorted.
From Stdlib Require OrdersEx.
From Stdlib Require Import Floats.
From stdpp Require Import gmap strings list fin_maps sorting.

Set Warnings "-inexact-float".
Open Scope Q_scope.

(** ** Exceptions *)

Inductive error : Type :=
  | KeyError (key : string)
  | ZeroDivisionError.

Inductive result (A : Type) : Type :=
  | Ok (a : A)
  | Raise (e : error).
Arguments Ok {A} a.
Arguments Raise {A} e.

Definition bind {A B : Type} (r : result A) (k : A → result B) : result B :=
  match r with
  | Ok a => k a
  | Raise e => Raise e
  end.

#[global] Instance result_bind : MBind result := λ A B k r, bind r k.


(** ** Numbers *)

Definition Qlt_bool (x y : Q) : bool := negb (Qle_bool y x).

(** Python's [a / b] on floats: a zero divisor raises. *)
Definition py_div (a b : Q) : result Q :=
  if Qeq_bool b 0 then Raise ZeroDivisionError else Ok (a / b).

(** Nearest integer, ties to the even one. *)
Definition round_half_even (x : Q) : Z :=
  let f := Qfloor x in
  let r := x - inject_Z f in
  if Qlt_bool r (1 # 2) then f
  else if Qlt_bool (1 # 2) r then (f + 1)%Z
  else if Z.even f then f else (f + 1)%Z.

Definition pow10 (n : nat) : Q := inject_Z (10 ^ Z.of_nat n).

(** [round(x, n)] on the value of [x]: the decimal with [n] digits nearest
    to it, ties to the even digit.  Python converts that decimal back to a
    double, see [Double.round]. *)
Definition round (x : Q) (n : nat) : Q :=
  inject_Z (round_half_even (x * pow10 n)) / pow10 n.

(** The sum of a list of numbers. *)
Definition Qsum (l : list Q) : Q := foldr Qplus 0 l.

(** ** Data model *)

(** One row of the bar frame: its index label and the columns the pipeline
    reads. *)
Record Bar : Type := mkBar {
  index : Z;
  ticker : string;
  timestamp : Z;
  open : Q;
  high : Q;
  low : Q;
  close : Q;
  volume : Q
}.

(** The columns added by [compute_group_indicators]. *)
Record Indicators : Type := mkIndicators {
  short_ma : option Q;
  long_ma : option Q;
  rsi : option Q;
  macd : option Q;
  macd_signal : option Q;
  bb_upper : option Q;
  bb_lower : option Q;
  bb_middle : option Q
}.

Record IRow : Type := mkIRow {
  bar : Bar;
  ind : Indicators
}.

(** The columns added by [compute_signals]. *)
Record SRow : Type := mkSRow {
  irow : IRow;
  buy : bool;
  sell : bool;
  signal : Z
}.

Definition row_ticker (r : SRow) : string := ticker (bar (irow r)).
Definition row_timestamp (r : SRow) : Z := timestamp (bar (irow r)).
Definition row_close (r : SRow) : Q := close (bar (irow r)).

(** [config['params']]: a window is [None] when its key is absent. *)
Record Params : Type := mkParams {
  short_window : option nat;
  long_window : option nat
}.

(** [config['risk']] *)
Record Risk : Type := mkRisk {
  stop_loss : Q;
  take_profit : Q
}.

(** The strategy configuration, as far as the pipeline reads it. *)
Record Config : Type := mkConfig {
  params : Params;
  risk : Risk
}.

(** [config['risk']['stop_loss']] and [config['risk']['take_profit']] *)
Definition stop_loss_pct (config : Config) : Q := stop_loss (risk config).
Definition take_profit_pct (config : Config) : Q := take_profit (risk config).

(** A value of the [held_positions] dict. *)
Record Position : Type := mkPosition {
  p_entry_price : Q;
  p_entry_datetime : Z;
  p_cash : Q;
  p_shares : Q
}.

(** An element of the [trades] list. *)
Record Trade : Type := mkTrade {
  t_ticker : string;
  t_entry_datetime : Z;
  t_exit_datetime : Z;
  t_entry_price : Q;
  t_exit_price : Q;
  t_return_pct : Q;
  t_pnl : Q;
  t_allocated_cash : Q;
  t_shares : Q;
  t_holding_ticks : Q;
  t_exit_reason : string
}.

(** The loop state of [simulate_trades_with_risk].  [pnl_log] is a ghost
    field: it records the local [pnl] of every exit, in order, and is read by
    no branch of the program. *)
Record State : Type := mkState {
  cash : Q;
  held_positions : gmap string Position;
  trades : list Trade;
  pnl_log : list Q
}.

(** ** Sorting *)

Section StableSort.
Context {A : Type} (leb : A → A → bool).

Fixpoint insert_by (x : A) (l : list A) : list A :=
  match l with
  | [] => [x]
  | y :: l' => if leb x y then x :: l else y :: insert_by x l'
  end.

(** Insertion sort, from the right: equal elements keep their relative
    order. *)
Definition stable_sort (l : list A) : list A := foldr insert_by [] l.

End StableSort.

Definition key_leb (r1 r2 : SRow) : bool :=
  (row_timestamp r1 <? row_timestamp r2)%Z
  || ((row_timestamp r1 =? row_timestamp r2)%Z
      && String.leb (row_ticker r1) (row_ticker r2)).

(** [df.sort_values(['timestamp', 'ticker'])] *)
Definition sort_values (df : list SRow) : list SRow := stable_sort key_leb df.

Definition entry_leb (t1 t2 : Trade) : bool :=
  (t_entry_datetime t1 <=? t_entry_datetime t2)%Z.

(** [pd.DataFrame(trades).sort_values(by='entry_datetime')]: a frame built
    from the empty list has no columns, so the sort key is missing.  Trades
    with equal [entry_datetime] are kept in list order here; pandas' default
    single-column sort does not promise an order for them. *)
Definition ledger (ts : list Trade) : result (list Trade) :=
  match ts with
  | [] => Raise (KeyError "entry_datetime")
  | _ :: _ => Ok (stable_sort entry_leb ts)
  end.

(** ** Trade simulation *)

(** [(date - position['entry_datetime']).total_seconds() / (15 * 60)] *)
Definition holding_ticks (date entry : Z) : Q :=
  (inject_Z (date - entry) / 1000000) / (15 * 60).

Definition exit_reason (signal : Z) (stop_loss_hit : bool) : string :=
  if (signal =? -1)%Z then "Strategy logic"
  else if stop_loss_hit then "Stop loss raised"
  else "Stop gain raised".

(** The exit block of the loop body. *)
Definition exit_step (config : Config) (st : State) (row : SRow) : result State :=
  let date := row_timestamp row in
  let ticker := row_ticker row in
  let signal := signal row in
  let current_price := row_close row in
  match held_positions st !! ticker with
  | Some position =>
      pnl_pct ← py_div (current_price - p_entry_price position)
                        (p_entry_price position);
      let stop_loss_hit := Qle_bool pnl_pct (- stop_loss_pct config) in
      let take_profit_hit := Qle_bool (take_profit_pct config) pnl_pct in
      if (signal =? -1)%Z || stop_loss_hit || take_profit_hit then
        let exit_price := current_price in
        let pnl := pnl_pct * p_cash position in
        Ok {| trades := trades st ++ [
                {| t_ticker := ticker;
                   t_entry_datetime := p_entry_datetime position;
                   t_exit_datetime := date;
                   t_entry_price := round (p_entry_price position) 4;
                   t_exit_price := round exit_price 4;
                   t_return_pct := round (pnl_pct * 100) 4;
                   t_pnl := round pnl 2;
                   t_allocated_cash := round (p_cash position) 2;
                   t_shares := round (p_shares position) 4;
                   t_holding_ticks :=
                     holding_ticks date (p_entry_datetime position);
                   t_exit_reason := exit_reason signal stop_loss_hit |} ];
              cash := cash st + (p_cash position + pnl);
              held_positions := delete ticker (held_positions st);
              pnl_log := pnl_log st ++ [pnl] |}
      else Ok st
  | None => Ok st
  end.

(** The buy block of the loop body. *)
Definition entry_step (st : State) (row : SRow) : result State :=
  let date := row_timestamp row in
  let ticker := row_ticker row in
  let signal := signal row in
  let current_price := row_close row in
  if (signal =? 1)%Z
     && negb (bool_decide (is_Some (held_positions st !! ticker)))
     && Qlt_bool 0 (cash st)
  then
    let cash_per_position := cash st in
    position_size ← py_div cash_per_position current_price;
    Ok {| trades := trades st;
          cash := cash st - cash_per_position;
          held_positions :=
            <[ ticker := {| p_entry_price := current_price;
                            p_entry_datetime := date;
                            p_cash := cash_per_position;
                            p_shares := position_size |} ]>
              (held_positions st);
          pnl_log := pnl_log st |}
  else Ok st.

(** One iteration of [for idx, row in df.iterrows()]. *)
Definition step (config : Config) (st : State) (row : SRow) : result State :=
  st' ← exit_step config st row; entry_step st' row.

Fixpoint run (config : Config) (st : State) (rows : list SRow) : result State :=
  match rows with
  | [] => Ok st
  | row :: rows' => st' ← step config st row; run config st' rows'
  end.

Definition init (initial_cash : Q) : State :=
  {| cash := initial_cash; held_positions := ∅; trades := []; pnl_log := [] |}.

(** The state when the loop of [simulate_trades_with_risk] ends. *)
Definition simulate_state (df : list SRow) (initial_cash : Q) (config : Config)
  : result State :=
  run config (init initial_cash) (sort_values df).

(** [config] stands for the configuration once lines 47-48 have read the two
    thresholds from it; a dict without them, such as the default [{}],
    raises [KeyError] there, before any row is looked at. *)
Definition simulate_trades_with_risk (df : list SRow) (initial_cash : Q)
    (config : Config) : result (list Trade) :=
  st ← simulate_state df initial_cash config; ledger (trades st).

(** ** Indicator computation *)

(** [calc_mean] of pandas' rolling aggregation: the mean of the observations
    in the window once there are at least [minp] of them, NaN before. *)
Definition calc_mean (minp nobs : nat) (sum_x : Q) : option Q :=
  if (minp <=? nobs)%nat && (0 <? nobs)%nat
  then Some (sum_x / inject_Z (Z.of_nat nobs))
  else None.

(** The loop of pandas' fixed-window [roll_mean], at position [i] with the
    values from [i] on still [todo]: the value that leaves the window is
    subtracted from the running sum, the value that enters is added.  The
    sum is exact here; pandas keeps it in double precision with a
    compensation term, so of this column the theorems use only which cells
    are defined. *)
Fixpoint roll_mean (window : nat) (values : list Q) (i : nat) (todo : list Q)
    (sum_x : Q) (nobs : nat) : list (option Q) :=
  match todo with
  | [] => []
  | x :: todo' =>
      let '(sum_x, nobs) :=
        if (window <=? i)%nat
        then (sum_x - nth (i - window) values 0, Nat.pred nobs)
        else (sum_x, nobs) in
      let sum_x := sum_x + x in
      let nobs := S nobs in
      calc_mean window nobs sum_x
        :: roll_mean window values (S i) todo' sum_x nobs
  end.

(** [series.rolling(window).mean()], with [min_periods] defaulting to
    [window]; a window of 0 is empty at every position. *)
Definition rolling_mean (window : nat) (values : list Q) : list (option Q) :=
  match window with
  | O => (λ _, None) <$> values
  | S _ => roll_mean window values 0 values 0 0
  end.

(** The indicator classes of the external library [ta], as the pipeline
    calls them: each maps the close series to a column of the same length. *)
Record TaLib : Type := mkTaLib {
  (** [ta.momentum.RSIIndicator(close, window).rsi()] *)
  RSIIndicator_rsi : list Q → nat → list (option Q);
  (** [ta.trend.MACD(close).macd()] and [.macd_signal()] *)
  MACD_macd : list Q → list (option Q);
  MACD_macd_signal : list Q → list (option Q);
  (** [ta.volatility.BollingerBands(close, window, window_dev)] *)
  BollingerBands_hband : list Q → nat → nat → list (option Q);
  BollingerBands_lband : list Q → nat → nat → list (option Q);
  BollingerBands_mavg : list Q → nat → nat → list (option Q)
}.

(** The cell of a column at position [i]; NaN where the column has none. *)
Definition cell (col : list (option Q)) (i : nat) : option Q :=
  default None (col !! i).

(** [.round(4)] on a cell. *)
Definition round4 (x : option Q) : option Q := (λ v, round v 4) <$> x.

Definition index_leb (b1 b2 : Bar) : bool := (index b1 <=? index b2)%Z.

(** [group.sort_index()]; rows with equal labels keep their order here. *)
Definition sort_index (group : list Bar) : list Bar := stable_sort index_leb group.

Definition compute_group_indicators (ta : TaLib) (short_window long_window : nat)
    (group : list Bar) : list IRow :=
  let group := sort_index group in
  let closes := close <$> group in
  let short_ma_col := rolling_mean short_window closes in
  let long_ma_col := rolling_mean long_window closes in
  let rsi_col := RSIIndicator_rsi ta closes 14 in
  let macd_col := MACD_macd ta closes in
  let macd_signal_col := MACD_macd_signal ta closes in
  let bb_upper_col := BollingerBands_hband ta closes 20 2 in
  let bb_lower_col := BollingerBands_lband ta closes 20 2 in
  let bb_middle_col := BollingerBands_mavg ta closes 20 2 in
  imap (λ i b,
          {| bar := b;
             ind := {| short_ma := round4 (cell short_ma_col i);
                       long_ma := round4 (cell long_ma_col i);
                       rsi := round4 (cell rsi_col i);
                       macd := round4 (cell macd_col i);
                       macd_signal := round4 (cell macd_signal_col i);
                       bb_upper := round4 (cell bb_upper_col i);
                       bb_lower := round4 (cell bb_lower_col i);
                       bb_middle := round4 (cell bb_middle_col i) |} |})
       group.

(** [df.groupby('ticker', group_keys=False).apply(f)]: the partitions are
    taken in ascending ticker order, each keeps the frame's row order, and the
    results are concatenated.  (When [f] keeps every partition's index pandas
    puts the rows back in the frame's order; the rows are the same, and the
    simulator sorts its input.) *)
Definition groupby_apply {A B : Type} (by_ticker : A → string)
    (f : list A → list B) (df : list A) : list B :=
  let tickers := stable_sort String.leb (remove_dups (by_ticker <$> df)) in
  mjoin ((λ tk, f (filter (λ r, by_ticker r = tk) df)) <$> tickers).

(** [dropna(subset=['short_ma', 'long_ma'])] keeps a row when neither cell is
    NaN. *)
Definition has_moving_averages (r : IRow) : bool :=
  bool_decide (is_Some (short_ma (ind r)))
  && bool_decide (is_Some (long_ma (ind r))).

(** The frame after the per-ticker apply, before [dropna]. *)
Definition indicator_rows (ta : TaLib) (df : list Bar) (config : Config)
  : list IRow :=
  let short_window := default 20%nat (short_window (params config)) in
  let long_window := default 50%nat (long_window (params config)) in
  groupby_apply ticker (compute_group_indicators ta short_window long_window) df.

(** An apply over no partitions returns the frame's own columns, so on an
    empty frame [dropna] finds neither moving-average column. *)
Definition compute_indicators (ta : TaLib) (df : list Bar) (config : Config)
  : result (list IRow) :=
  match df with
  | [] => Raise (KeyError "['short_ma', 'long_ma']")
  | _ :: _ =>
      Ok (filter (λ r, has_moving_averages r = true)
                 (indicator_rows ta df config))
  end.

(** ** Signal evaluation *)

(** [logic['buy']] and [logic['sell']] as pandas evaluates them: a boolean
    per row, from the row's own columns. *)
Record Logic : Type := mkLogic {
  buy_condition : IRow → bool;
  sell_condition : IRow → bool
}.

Definition compute_signals (logic : Logic) (group : list IRow) : list SRow :=
  (λ r,
     let buy := buy_condition logic r in
     let sell := sell_condition logic r in
     let signal := 0%Z in
     let signal := if buy then 1%Z else signal in
     let signal := if sell then (-1)%Z else signal in
     {| irow := r; buy := buy; sell := sell; signal := signal |}) <$> group.

Definition evaluate_signals (df : list IRow) (logic : Logic) : list SRow :=
  groupby_apply (λ r, ticker (bar r)) (compute_signals logic) df.

(** ** Vocabulary of the moving-average property *)

(** The trailing [w] closes ending at position [i], inclusive. *)
Definition trailing_window (w i : nat) (closes : list Q) : list Q :=
  take w (drop (i + 1 - w) closes).

(** The simple moving average in the words of the specification: undefined
    while fewer than [w] closes are available, then the arithmetic mean of
    the trailing [w] closes. *)
Definition sma_spec (w : nat) (closes : list Q) (i : nat) : option Q :=
  if (i + 1 <? w)%nat then None
  else Some (Qsum (trailing_window w i closes) / inject_Z (Z.of_nat w)).

(** Equality of cells up to the value of the rational. *)
Definition cell_eq (x y : option Q) : Prop :=
  match x, y with
  | None, None => True
  | Some a, Some b => a == b
  | _, _ => False
  end.

(** ** Python values of the adapters

    The configuration loader, the data fetcher and the report work on
    untyped Python values: what [json.load] returns, and the dict the loader
    builds from it.  A dict is the list of its items in insertion order, with
    distinct keys. *)

#[local] Unset Elimination Schemes.
Inductive pyval : Type :=
  | PyNone
  | PyBool (b : bool)
  | PyInt (n : Z)
  | PyFloat (x : Q)
  | PyStr (s : string)
  | PyList (l : list pyval)
  | PyDict (d : list (string * pyval))
  | PyDatetime (t : Z).
#[local] Set Elimination Schemes.

Inductive pyerror : Type :=
  | PyKeyError (key : string)
  | PyTypeError
  | PyAttributeError
  | PyValueError
  | PyUnboundLocalError (name : string).

Inductive pyresult (A : Type) : Type :=
  | Return (a : A)
  | Throw (e : pyerror).
Arguments Return {A} a.
Arguments Throw {A} e.

#[global] Instance pyresult_bind : MBind pyresult := λ A B k r,
  match r with
  | Return a => k a
  | Throw e => Throw e
  end.

(** The value stored under [k] in the items of a dict. *)
Fixpoint assoc (k : string) (d : list (string * pyval)) : option pyval :=
  match d with
  | [] => None
  | (k', v) :: d' => if String.eqb k k' then Some v else assoc k d'
  end.

(** [v[k]] for a string [k]: only a dict can be indexed by a string. *)
Definition py_getitem (v : pyval) (k : string) : pyresult pyval :=
  match v with
  | PyDict d =>
      match assoc k d with
      | Some x => Return x
      | None => Throw (PyKeyError k)
      end
  | _ => Throw PyTypeError
  end.

(** [v.get(k, dflt)]: only a dict has the method. *)
Definition py_get (v : pyval) (k : string) (dflt : pyval) : pyresult pyval :=
  match v with
  | PyDict d => Return (default dflt (assoc k d))
  | _ => Throw PyAttributeError
  end.

(** ** Configuration loader *)

(** [datetime.strptime(v, "%Y-%m-%d")]; [parse] is the parser of the
    standard library on strings, [None] where it rejects the text. *)
Definition py_strptime (parse : string → option Z) (v : pyval) : pyresult pyval :=
  match v with
  | PyStr s =>
      match parse s with
      | Some t => Return (PyDatetime t)
      | None => Throw PyValueError
      end
  | _ => Throw PyTypeError
  end.

(** [load_strategy_config], from the value [json.load] returned. *)
Definition load_strategy_config (parse : string → option Z) (config : pyval)
  : pyresult pyval :=
  name ← py_getitem config "strategy_name";
  tickers ← py_getitem config "tickers";
  short_window ← (p ← py_getitem config "parameters"; py_getitem p "short_window");
  long_window ← (p ← py_getitem config "parameters"; py_getitem p "long_window");
  start_date ← (p ← py_getitem config "parameters";
                s ← py_getitem p "start_date"; py_strptime parse s);
  end_date ← (p ← py_getitem config "parameters";
              s ← py_getitem p "end_date"; py_strptime parse s);
  buy_condition ← (l ← py_getitem config "logic"; py_getitem l "buy_condition");
  sell_condition ← (l ← py_getitem config "logic"; py_getitem l "sell_condition");
  capital ← py_get config "capital" (PyInt 100000);
  rebalance ← py_get config "rebalance" (PyStr "daily");
  sizing_method ← (p ← py_getitem config "position_sizing";
                   py_get p "method" (PyStr "equal_weight"));
  stop_loss ← (r ← py_getitem config "risk_management";
               py_get r "stop_loss_pct" (PyFloat (5 # 100)));
  take_profit ← (r ← py_getitem config "risk_management";
                 py_get r "take_profit_pct" (PyFloat (15 # 100)));
  Return (PyDict [
    ("name", name);
    ("tickers", tickers);
    ("params", PyDict [("short_window", short_window);
                       ("long_window", long_window);
                       ("start_date", start_date);
                       ("end_date", end_date)]);
    ("logic", PyDict [("buy", buy_condition); ("sell", sell_condition)]);
    ("capital", capital);
    ("rebalance", rebalance);
    ("sizing", sizing_method);
    ("risk", PyDict [("stop_loss", stop_loss); ("take_profit", take_profit)])
  ]).

(** [get_credentials], from the parsed credentials file. *)
Definition get_credentials (credentials : pyval) : pyresult pyval :=
  py_getitem credentials "api_key".

(** ** Data fetcher *)

(** An aggregate bar as the provider's client yields it; [a_timestamp] is in
    milliseconds. *)
Record Agg : Type := mkAgg {
  a_open : Q;
  a_high : Q;
  a_low : Q;
  a_close : Q;
  a_volume : Q;
  a_timestamp : Z
}.

(** [pd.DataFrame(aggs)] followed by [_aggs['ticker'] = ticker]: one row per
    aggregate, labelled 0, 1, 2, ... *)
Definition frame_of (tk : string) (aggs : list Agg) : list Bar :=
  imap (λ i a,
          {| index := Z.of_nat i; ticker := tk; timestamp := a_timestamp a;
             open := a_open a; high := a_high a; low := a_low a;
             close := a_close a; volume := a_volume a |}) aggs.

(** The inner loop over the aggregates of one ticker: [_aggs] is rebuilt
    after every append, and keeps its previous value when there is no
    aggregate at all. *)
Fixpoint fetch_ticker (tk : string) (aggs todo : list Agg)
    (_aggs : option (list Bar)) : option (list Bar) :=
  match todo with
  | [] => _aggs
  | a :: todo' =>
      let aggs := aggs ++ [a] in
      fetch_ticker tk aggs todo' (Some (frame_of tk aggs))
  end.

(** The outer loop over the tickers; [_aggs] is [None] while the local
    variable is unbound. *)
Fixpoint fetch_all (list_aggs : string → list Agg) (tickers : list string)
    (df_aggs : list Bar) (_aggs : option (list Bar)) : pyresult (list Bar) :=
  match tickers with
  | [] => Return df_aggs
  | tk :: tickers' =>
      match fetch_ticker tk [] (list_aggs tk) _aggs with
      | None => Throw (PyUnboundLocalError "_aggs")
      | Some frame =>
          fetch_all list_aggs tickers' (df_aggs ++ frame) (Some frame)
      end
  end.

(** The [timestamp] cell of a row after
    [.apply(lambda x: datetime.fromtimestamp(x/1000))]. *)
Definition convert_timestamp (fromtimestamp : Q → Z) (b : Bar) : Bar :=
  {| index := index b; ticker := ticker b;
     timestamp := fromtimestamp (inject_Z (timestamp b) / 1000);
     open := open b; high := high b; low := low b;
     close := close b; volume := volume b |}.

(** [get_polygon_data]: [list_aggs tk] are the aggregates the client yields
    for a ticker, [fromtimestamp] the conversion of a number of seconds to a
    datetime.  A frame that never received a concatenation has no
    [timestamp] column. *)
Definition get_polygon_data (list_aggs : string → list Agg)
    (fromtimestamp : Q → Z) (tickers : list string) : pyresult (list Bar) :=
  df_aggs ← fetch_all list_aggs tickers [] None;
  match tickers with
  | [] => Throw (PyKeyError "timestamp")
  | _ :: _ => Return (sort_index (convert_timestamp fromtimestamp <$> df_aggs))
  end.

(** ** Report generator

    The report is the sequence of calls made on the [FPDF] object.  How
    Python renders a value as text is taken from [Formatter].  What [FPDF]
    does with a call (encoding the text, writing the file) and the range of
    a number format are outside the model: [Return] means that every call
    was reached with its arguments, and a property of this model transfers
    to the program where it speaks about a report that returns. *)

Inductive pdf_call : Type :=
  | AddPage
  | SetFont (family style : string) (size : Z)
  | Cell (w h : Z) (txt : string) (border ln : bool)
  | Ln (h : option Z)
  | Output (path : string).

Record Formatter : Type := mkFormatter {
  (** an f-string field without format: [str(v)] *)
  py_str : pyval → string;
  (** [format(x, ",.2f")], [format(x, ".1f")], [format(x, ".2f")] *)
  format_money : Q → string;
  format_f1 : Q → string;
  format_f2 : Q → string;
  (** [str(d.date())] and [d.strftime("%Y-%m-%d %H:%M")] *)
  date_str : Z → string;
  strftime_minute : Z → string
}.

(** [', '.join(v)]: [v] must be iterable and yield strings; a string yields
    its characters, a dict its keys. *)
Definition py_join (sep : string) (v : pyval) : pyresult string :=
  match v with
  | PyList l =>
      match mapM (λ x, match x with PyStr s => Some s | _ => None end) l with
      | Some ss => Return (String.concat sep ss)
      | None => Throw PyTypeError
      end
  | PyStr s =>
      Return (String.concat sep
                ((λ c, String c EmptyString) <$> String.list_ascii_of_string s))
  | PyDict d => Return (String.concat sep (d.*1))
  | _ => Throw PyTypeError
  end.

(** The number a float format code receives from [v * k]: a string stays a
    string and is refused by the format code, other non-numbers are a type
    error. *)
Definition py_number (v : pyval) : pyresult Q :=
  match v with
  | PyInt n => Return (inject_Z n)
  | PyFloat x => Return x
  | PyBool b => Return (if b then 1 else 0)
  | PyStr _ => Throw PyValueError
  | _ => Throw PyTypeError
  end.

(** [v.date()] rendered in an f-string. *)
Definition py_date (fmt : Formatter) (v : pyval) : pyresult string :=
  match v with
  | PyDatetime t => Return (date_str fmt t)
  | _ => Throw PyAttributeError
  end.

(** Line 67: [(s[:40] + '...') if len(s) > 43 else s] *)
Definition display_exit_reason (s : string) : string :=
  if (43 <? String.length s)%nat
  then String.append (String.substring 0 40 s) "..."
  else s.

(** Lines 40-43. *)
Definition cumulative_pnl (sim_df : list Trade) : Q := Qsum (t_pnl <$> sim_df).

(** [cumulative_pnl / initial_capital * 100]; the quotient of a float by 0
    is not a number of the model. *)
Definition effective_return (sim_df : list Trade) (initial_capital : Q)
  : option Q :=
  if Qeq_bool initial_capital 0 then None
  else Some (cumulative_pnl sim_df / initial_capital * 100).

(** What [".2f"] renders for a float divided by 0 and multiplied by 100. *)
Definition nonfinite (x : Q) : string :=
  if Qlt_bool 0 x then "inf" else if Qlt_bool x 0 then "-inf" else "nan".

Definition headers : list string :=
  ["Ticker"; "Trade Time"; "Return %"; "PnL ($)"; "Shares"; "Ticks";
   "Exit Reason"].
Definition col_widths : list Z := [18; 30; 20; 25; 20; 18; 45]%Z.

(** Lines 65-76: the cells of one trade. *)
Definition trade_cells (fmt : Formatter) (row : Trade) : list pdf_call :=
  let exit_dt := strftime_minute fmt (t_exit_datetime row) in
  let exit_reason := display_exit_reason (t_exit_reason row) in
  [Cell 18 6 (t_ticker row) true false;
   Cell 30 6 exit_dt true false;
   Cell 20 6 (String.append (format_f2 fmt (t_return_pct row)) "%") true false;
   Cell 25 6 (String.append "$" (format_f2 fmt (t_pnl row))) true false;
   Cell 20 6 (format_f2 fmt (t_shares row)) true false;
   Cell 18 6 (format_f1 fmt (t_holding_ticks row)) true false;
   Cell 45 6 exit_reason true false;
   Ln None].

Definition generate_pdf_report (fmt : Formatter) (sim_df : list Trade)
    (config : pyval) : pyresult (list pdf_call) :=
  name ← py_get config "name" (PyStr "N/A");
  description ← py_get config "description" (PyStr "N/A");
  tickers ← (v ← py_get config "tickers" (PyList []); py_join ", " v);
  params ← py_get config "params" (PyDict []);
  short_window ← py_get params "short_window" (PyStr "N/A");
  long_window ← py_get params "long_window" (PyStr "N/A");
  start_date ← py_get params "start_date" PyNone;
  end_date ← py_get params "end_date" PyNone;
  start_txt ← py_date fmt start_date;
  end_txt ← py_date fmt end_date;
  logic ← py_get config "logic" (PyDict []);
  buy ← py_get logic "buy" (PyStr "N/A");
  sell ← py_get logic "sell" (PyStr "N/A");
  capital ← (v ← py_get config "capital" (PyInt 0); py_number v);
  risk ← py_get config "risk" (PyDict []);
  stop_loss ← (v ← py_get risk "stop_loss" (PyStr "N/A"); py_number v);
  take_profit ← (v ← py_get risk "take_profit" (PyStr "N/A"); py_number v);
  initial_capital ← (v ← py_get config "capital" (PyInt 1000000); py_number v);
  let total_operations := length sim_df in
  Return (
    [AddPage; SetFont "Arial" "" 12;
     SetFont "Arial" "B" 14;
     Cell 0 10 "Backtesting Simulation Inputs" false true;
     Ln (Some 4%Z);
     SetFont "Arial" "" 11;
     Cell 0 8 (String.append "Strategy: " (py_str fmt name)) false true;
     Cell 0 8 (String.append "Description: " (py_str fmt description)) false true;
     Cell 0 8 (String.append "Tickers: " tickers) false true;
     Cell 0 8 (String.append "Short Window: " (py_str fmt short_window)) false true;
     Cell 0 8 (String.append "Long Window: " (py_str fmt long_window)) false true;
     Cell 0 8 (String.append "Date Range: "
                 (String.append start_txt (String.append " to " end_txt)))
          false true;
     Cell 0 8 (String.append "Buy Condition: " (py_str fmt buy)) false true;
     Cell 0 8 (String.append "Sell Condition: " (py_str fmt sell)) false true;
     Cell 0 8 (String.append "Initial Capital: $" (format_money fmt capital))
          false true;
     Cell 0 8 (String.append "Stop Loss: "
                 (String.append (format_f1 fmt (stop_loss * 100)) "%"))
          false true;
     Cell 0 8 (String.append "Take Profit: "
                 (String.append (format_f1 fmt (take_profit * 100)) "%"))
          false true;
     Ln (Some 10%Z);
     SetFont "Arial" "B" 14;
     Cell 0 10 "Backtesting Results Summary" false true;
     Ln (Some 2%Z);
     SetFont "Arial" "" 12;
     Cell 0 8 (String.append "Cumulative PnL: $"
                 (format_money fmt (cumulative_pnl sim_df))) false true;
     Cell 0 8 (String.append "Effective Return: "
                 (String.append
                    (match effective_return sim_df initial_capital with
                     | Some r => format_f2 fmt r
                     | None => nonfinite (cumulative_pnl sim_df)
                     end) " %")) false true;
     Cell 0 8 (String.append "Number of Total Operations: "
                 (py_str fmt (PyInt (Z.of_nat total_operations)))) false true;
     Ln (Some 8%Z);
     SetFont "Arial" "B" 10]
    ++ zip_with (λ header width, Cell width 8 header true false)
         headers col_widths
    ++ [Ln None; SetFont "Arial" "" 9]
    ++ mjoin (trade_cells fmt <$> sim_df)
    ++ [Output "backtesting_results.pdf"]).

(** ** Concrete rows for the examples *)

Definition no_indicators : Indicators :=
  mkIndicators None None None None None None None None.

(** A signalled row with the four columns the simulator reads. *)
Definition srow (tk : string) (ts : Z) (price : Q) (sig : Z) : SRow :=
  mkSRow (mkIRow (mkBar 0 tk ts price price price price 0) no_indicators)
         (sig =? 1)%Z (sig =? -1)%Z sig.

(** Microseconds in one 15-minute bar. *)
Definition tick : Z := 900000000.

Definition default_config : Config :=
  mkConfig (mkParams (Some 20%nat) (Some 50%nat)) (mkRisk (5 # 100) (15 # 100)).

(** ** Vocabulary of the statements

    The definitions below name parts of the loop body so that the theorems
    can speak about them; [exit_step] and [entry_step] are proved equal to
    them case by case. *)

(** Cash committed to the open positions: the sum of [position['cash']] over
    [held_positions]. *)
Definition allocated (held : gmap string Position) : Q :=
  Qsum ((λ kp, p_cash kp.2) <$> map_to_list held).

(** The local [pnl_pct] of the exit block, at full precision. *)
Definition pnl_pct_of (row : SRow) (p : Position) : Q :=
  (row_close row - p_entry_price p) / p_entry_price p.

Definition stop_loss_hit_of (config : Config) (row : SRow) (p : Position) : bool :=
  Qle_bool (pnl_pct_of row p) (- stop_loss_pct config).

Definition take_profit_hit_of (config : Config) (row : SRow) (p : Position) : bool :=
  Qle_bool (take_profit_pct config) (pnl_pct_of row p).

(** The guard [signal == -1 or stop_loss_hit or take_profit_hit]. *)
Definition exit_fires (config : Config) (row : SRow) (p : Position) : bool :=
  (signal row =? -1)%Z || stop_loss_hit_of config row p
  || take_profit_hit_of config row p.

(** The dict appended to [trades] when [row] closes position [p]. *)
Definition trade_of (config : Config) (row : SRow) (p : Position) : Trade :=
  {| t_ticker := row_ticker row;
     t_entry_datetime := p_entry_datetime p;
     t_exit_datetime := row_timestamp row;
     t_entry_price := round (p_entry_price p) 4;
     t_exit_price := round (row_close row) 4;
     t_return_pct := round (pnl_pct_of row p * 100) 4;
     t_pnl := round (pnl_pct_of row p * p_cash p) 2;
     t_allocated_cash := round (p_cash p) 2;
     t_shares := round (p_shares p) 4;
     t_holding_ticks := holding_ticks (row_timestamp row) (p_entry_datetime p);
     t_exit_reason := exit_reason (signal row) (stop_loss_hit_of config row p) |}.

(** The state after [row] closes position [p]. *)
Definition closed (config : Config) (st : State) (row : SRow) (p : Position) : State :=
  {| trades := trades st ++ [trade_of config row p];
     cash := cash st + (p_cash p + pnl_pct_of row p * p_cash p);
     held_positions := delete (row_ticker row) (held_positions st);
     pnl_log := pnl_log st ++ [pnl_pct_of row p * p_cash p] |}.

(** The guard [signal == 1 and ticker not in held_positions and cash > 0]. *)
Definition entry_fires (st : State) (row : SRow) : bool :=
  (signal row =? 1)%Z
  && negb (bool_decide (is_Some (held_positions st !! row_ticker row)))
  && Qlt_bool 0 (cash st).

(** The position created by a buy on [row]. *)
Definition position_of (st : State) (row : SRow) : Position :=
  {| p_entry_price := row_close row;
     p_entry_datetime := row_timestamp row;
     p_cash := cash st;
     p_shares := cash st / row_close row |}.

(** The state after a buy on [row]. *)
Definition opened (st : State) (row : SRow) : State :=
  {| trades := trades st;
     cash := cash st - cash st;
     held_positions := <[ row_ticker row := position_of st row ]> (held_positions st);
     pnl_log := pnl_log st |}.

(** The (timestamp, ticker) key of a row. *)
Definition key (r : SRow) : Z * string := (row_timestamp r, row_ticker r).

(** Every trade record carries the 2-decimal rounding of the logged [pnl]. *)
Definition log_matches (st : State) : Prop :=
  Forall2 (λ t pnl, t_pnl t = round pnl 2) (trades st) (pnl_log st).

(** At most one position is open, and while one is open no cash is left. *)
Definition single_position (st : State) : Prop :=
  held_positions st = ∅ ∨ (size (held_positions st) = 1%nat ∧ cash st == 0).

(** A winning round trip whose profit is not a whole number of cents. *)
Definition thirds_bars : list SRow :=
  [srow "ABC" 0 3 1; srow "ABC" tick 4 (-1)].

(** The order of [sort_values(['timestamp', 'ticker'])] as a relation. *)
Definition key_le (r1 r2 : SRow) : Prop := key_leb r1 r2 = true.

Definition ts_le (r1 r2 : SRow) : Prop :=
  (row_timestamp r1 ≤ row_timestamp r2)%Z.

(** Every open position was entered strictly before each later bar of its
    ticker in [rows]. *)
Definition entries_before (st : State) (rows : list SRow) : Prop :=
  ∀ tk p, held_positions st !! tk = Some p →
    Forall (λ r, row_ticker r = tk → (p_entry_datetime p < row_timestamp r)%Z) rows.

(** Every recorded trade exits strictly after it entered, and its
    [holding_ticks] is computed from its two datetimes. *)
Definition trades_forward (st : State) : Prop :=
  Forall (λ t, (t_entry_datetime t < t_exit_datetime t)%Z
               ∧ t_holding_ticks t
                 = holding_ticks (t_exit_datetime t) (t_entry_datetime t))
         (trades st).

(** The three strings the exit block writes to [exit_reason]. *)
Definition exit_labels : list string :=
  ["Strategy logic"; "Stop loss raised"; "Stop gain raised"].

(** A buy at 100 followed by a bar that both signals Sell and has fallen 10%,
    past the 5% stop loss of [default_config]. *)
Definition sell_and_stop_bars : list SRow :=
  [srow "ABC" 0 100 1; srow "ABC" tick 90 (-1)].




(** Two tickers that signal Buy on the same timestamp, listed in the frame
    with "B" first; a later bar of "B" signals Buy again. *)
Definition tie_bars : list SRow :=
  [srow "B" 0 50 1; srow "A" 0 100 1; srow "B" tick 51 1].

(** Four bars of one ticker with closes 1, 2, 3, 4. *)
Definition ramp_bars : list Bar :=
  [mkBar 0 "ABC" 0 1 1 1 1 0; mkBar 1 "ABC" tick 1 2 1 2 0;
   mkBar 2 "ABC" (2 * tick) 2 3 2 3 0; mkBar 3 "ABC" (3 * tick) 3 4 3 4 0].

(** An indicator library whose columns are still in warmup everywhere. *)
Definition ta_warmup : TaLib :=
  {| RSIIndicator_rsi := λ c _, (λ _, None) <$> c;
     MACD_macd := λ c, (λ _, None) <$> c;
     MACD_macd_signal := λ c, (λ _, None) <$> c;
     BollingerBands_hband := λ c _ _, (λ _, None) <$> c;
     BollingerBands_lband := λ c _ _, (λ _, None) <$> c;
     BollingerBands_mavg := λ c _ _, (λ _, None) <$> c |}.

(** Windows 3 and 2 instead of the defaults. *)
Definition small_windows : Config :=
  mkConfig (mkParams (Some 3%nat) (Some 2%nat)) (mkRisk (5 # 100) (15 # 100)).


(** ** Vocabulary of the further properties of the simulator *)

Definition entry_le (t1 t2 : Trade) : Prop :=
  (t_entry_datetime t1 ≤ t_entry_datetime t2)%Z.

(** The second trade is entered no earlier than the first one is exited. *)
Definition follows (t1 t2 : Trade) : Prop :=
  (t_exit_datetime t1 ≤ t_entry_datetime t2)%Z.

(** The trades recorded so far do not overlap in time, none reaches past the
    bars still to come, and an open position was entered after all of them. *)
Definition sequential (st : State) (rows : list SRow) : Prop :=
  StronglySorted follows (trades st)
  ∧ Forall (λ t, (t_entry_datetime t ≤ t_exit_datetime t)%Z) (trades st)
  ∧ (∀ t tk p, t ∈ trades st → held_positions st !! tk = Some p →
       (t_exit_datetime t ≤ p_entry_datetime p)%Z)
  ∧ (∀ t, t ∈ trades st →
       Forall (λ r, (t_exit_datetime t ≤ row_timestamp r)%Z) rows)
  ∧ (∀ tk p, held_positions st !! tk = Some p →
       Forall (λ r, (p_entry_datetime p ≤ row_timestamp r)%Z) rows).


(** "A" is bought and sold at a profit, then "B" is bought and stopped out. *)
Definition two_ticker_bars : list SRow :=
  [srow "A" 0 100 1; srow "A" tick 120 0; srow "B" tick 10 1;
   srow "B" (2 * tick) 9 0].

(** ** The script *)

(** [.reset_index(drop=True)]: the rows get the labels 0, 1, 2, ... *)
Definition reset_index (df : list SRow) : list SRow :=
  imap (λ i r,
          {| irow := {| bar := {| index := Z.of_nat i;
                                  ticker := ticker (bar (irow r));
                                  timestamp := timestamp (bar (irow r));
                                  open := open (bar (irow r));
                                  high := high (bar (irow r));
                                  low := low (bar (irow r));
                                  close := close (bar (irow r));
                                  volume := volume (bar (irow r)) |};
                        ind := ind (irow r) |};
             buy := buy r; sell := sell r; signal := signal r |}) df.

(** Lines 214-216 of the script, from the fetched bars to the ledger:
    [compute_indicators], [evaluate_signals], [reset_index] and
    [simulate_trades_with_risk] with [config['capital']]. *)
Definition backtest (ta : TaLib) (logic : Logic) (config : Config) (capital : Q)
    (raw : list Bar) : result (list Trade) :=
  df ← compute_indicators ta raw config;
  let df_wIndicators := reset_index (evaluate_signals df logic) in
  simulate_trades_with_risk df_wIndicators capital config.

(** The four columns the simulator reads. *)
Definition read_columns (r : SRow) : Z * string * Z * Q :=
  (row_timestamp r, row_ticker r, signal r, row_close r).

(** The windows [compute_indicators] uses. *)
Definition short_window_of (config : Config) : nat :=
  default 20%nat (short_window (params config)).
Definition long_window_of (config : Config) : nat :=
  default 50%nat (long_window (params config)).

(** The number of leading bars of a ticker without both moving averages. *)
Definition warmup (config : Config) : nat :=
  (Nat.max (short_window_of config) (long_window_of config) - 1)%nat.

(** [ramp_bars] with the bars of a second ticker mixed in. *)
Definition ramp_and_other : list Bar :=
  mkBar 0 "XYZ" 0 7 7 7 7 0 :: ramp_bars ++ [mkBar 1 "XYZ" tick 8 8 8 8 0].

(** A crossover strategy on the two moving averages. *)
Definition crossover : Logic :=
  {| buy_condition := λ r,
       match short_ma (ind r), long_ma (ind r) with
       | Some s, Some l => Qlt_bool l s
       | _, _ => false
       end;
     sell_condition := λ r,
       match short_ma (ind r), long_ma (ind r) with
       | Some s, Some l => Qlt_bool s l
       | _, _ => false
       end |}.

(** Two aggregates, and a provider that has them for "A" only. *)
Definition two_aggs : list Agg :=
  [mkAgg 1 2 1 2 10 0; mkAgg 2 3 2 3 10 900000].
Definition only_A (tk : string) : list Agg :=
  if String.eqb tk "A" then two_aggs else [].

(** Milliseconds-in-seconds to microseconds, in UTC. *)
Definition utc (seconds : Q) : Z := Qfloor (seconds * 1000000).

(** The (timestamp, ticker) pair of a fetched bar. *)
Definition bar_key (b : Bar) : Z * string := (timestamp b, ticker b).

(** ** Vocabulary of the loader's properties *)

(** What a parsed strategy file must contain for the loader to return. *)
Definition loadable (parse : string → option Z) (config : pyval) : Prop :=
  ∃ d p l ps rm s1 s2,
    config = PyDict d
    ∧ is_Some (assoc "strategy_name" d)
    ∧ is_Some (assoc "tickers" d)
    ∧ assoc "parameters" d = Some (PyDict p)
    ∧ is_Some (assoc "short_window" p)
    ∧ is_Some (assoc "long_window" p)
    ∧ assoc "start_date" p = Some (PyStr s1) ∧ is_Some (parse s1)
    ∧ assoc "end_date" p = Some (PyStr s2) ∧ is_Some (parse s2)
    ∧ assoc "logic" d = Some (PyDict l)
    ∧ is_Some (assoc "buy_condition" l)
    ∧ is_Some (assoc "sell_condition" l)
    ∧ assoc "position_sizing" d = Some (PyDict ps)
    ∧ assoc "risk_management" d = Some (PyDict rm).

(** A strategy file with every required entry and empty optional sections. *)
Definition minimal_file : pyval :=
  PyDict [("strategy_name", PyStr "sma");
          ("tickers", PyList [PyStr "A"]);
          ("parameters", PyDict [("short_window", PyInt 2);
                                 ("long_window", PyInt 3);
                                 ("start_date", PyStr "2024-01-01");
                                 ("end_date", PyStr "2024-02-01")]);
          ("logic", PyDict [("buy_condition", PyStr "short_ma > long_ma");
                            ("sell_condition", PyStr "short_ma < long_ma")]);
          ("position_sizing", PyDict []);
          ("risk_management", PyDict [])].

(** A date parser that accepts the two dates of [minimal_file]. *)
Definition parse_two (s : string) : option Z :=
  if String.eqb s "2024-01-01" then Some 1704067200000000%Z
  else if String.eqb s "2024-02-01" then Some 1706745600000000%Z
  else None.

(** ** Vocabulary of the report's properties *)

Definition is_number (v : pyval) : Prop := ∃ q, py_number v = Return q.

Definition joinable (v : pyval) : Prop := ∃ s, py_join ", " v = Return s.

(** A formatter that renders every value as the same placeholder. *)
Definition blank_formatter : Formatter :=
  {| py_str := λ _, "?"; format_money := λ _, "?"; format_f1 := λ _, "?";
     format_f2 := λ _, "?"; date_str := λ _, "?";
     strftime_minute := λ _, "?" |}.

(** * The trade simulator in double precision

    A Python [float] is an IEEE 754 binary64 number, and so is [float] here:
    [+], [-], [*], [/] round to the nearest double, ties to the even
    mantissa, and the comparisons are those of the standard (a NaN compares
    false with everything).  Module [Double] embeds
    [simulate_trades_with_risk] a second time, on these numbers: the numeric
    columns, [initial_cash] and the two thresholds are floats.  An [int] below
    2**53 that reaches the arithmetic (a capital of 100000, say) acts as the
    float of the same value.

    A decimal literal such as [762.33] denotes the double nearest to it, as
    in Python. *)

Module Double.

(** Python's [a / b] on floats: a zero divisor, of either sign, raises. *)
Definition py_div (a b : float) : result float :=
  if is_zero b then Raise ZeroDivisionError else Ok (a / b)%float.

(** The real number a finite double stands for (0 for the others). *)
Definition value (x : float) : Q :=
  match Prim2SF x with
  | S754_finite s m e =>
      (if s then - inject_Z (Zpos m) else inject_Z (Zpos m)) * Qpower 2 e
  | _ => 0
  end.

(** The double nearest to the non-negative rational [q], ties to the even
    mantissa, with sign bit [s]. *)
Definition nearest_double (s : bool) (q : Q) : float :=
  match Qnum q with
  | Zpos k =>
      SF2Prim (SFdiv prec emax (S754_finite s k 0)
                 (S754_finite false (Qden q) 0))
  | _ => SF2Prim (S754_zero s)
  end.

(** [float(q)] for a decimal [q]. *)
Definition of_Q (q : Q) : float := nearest_double (Qnum q <? 0)%Z (Qabs q).

(** [float(z)] for an integer whose magnitude is in the range of doubles. *)
Definition float_of_Z (z : Z) : float :=
  SF2Prim (binary_normalize prec emax z 0 false).

(** [round(x, n)] of a float, for [n ≥ 0]: the exact value of [x] is rounded
    to [n] decimals, ties to the even digit, and the decimal obtained is
    converted to the nearest double; the sign of [x] is kept, also on a zero
    result.  Zeros, infinities and NaN are returned as they are. *)
Definition round (x : float) (n : nat) : float :=
  match Prim2SF x with
  | S754_finite s m e =>
      nearest_double s (round (inject_Z (Zpos m) * Qpower 2 e) n)
  | _ => x
  end.

(** ** Data model *)

(** The four columns of a signalled row that the loop reads. *)
Record Row : Type := mkRow {
  timestamp : Z;
  ticker : string;
  signal : Z;
  close : float
}.

(** [config['risk']] *)
Record Risk : Type := mkRisk {
  stop_loss : float;
  take_profit : float
}.

Record Config : Type := mkConfig {
  risk : Risk
}.

(** [config['risk']['stop_loss']] and [config['risk']['take_profit']] *)
Definition stop_loss_pct (config : Config) : float := stop_loss (risk config).
Definition take_profit_pct (config : Config) : float := take_profit (risk config).

(** A value of the [held_positions] dict. *)
Record Position : Type := mkPosition {
  p_entry_price : float;
  p_entry_datetime : Z;
  p_cash : float;
  p_shares : float
}.

(** An element of the [trades] list. *)
Record Trade : Type := mkTrade {
  t_ticker : string;
  t_entry_datetime : Z;
  t_exit_datetime : Z;
  t_entry_price : float;
  t_exit_price : float;
  t_return_pct : float;
  t_pnl : float;
  t_allocated_cash : float;
  t_shares : float;
  t_holding_ticks : float;
  t_exit_reason : string
}.

(** The loop state; [pnl_log] is a ghost field that records the local [pnl]
    of every exit, in order, and is read by no branch of the program. *)
Record State : Type := mkState {
  cash : float;
  held_positions : gmap string Position;
  trades : list Trade;
  pnl_log : list float
}.

Definition key_leb (r1 r2 : Row) : bool :=
  (timestamp r1 <? timestamp r2)%Z
  || ((timestamp r1 =? timestamp r2)%Z && String.leb (ticker r1) (ticker r2)).

(** [df.sort_values(['timestamp', 'ticker'])] *)
Definition sort_values (df : list Row) : list Row := stable_sort key_leb df.

Definition entry_leb (t1 t2 : Trade) : bool :=
  (t_entry_datetime t1 <=? t_entry_datetime t2)%Z.

(** [pd.DataFrame(trades).sort_values(by='entry_datetime')] *)
Definition ledger (ts : list Trade) : result (list Trade) :=
  match ts with
  | [] => Raise (KeyError "entry_datetime")
  | _ :: _ => Ok (stable_sort entry_leb ts)
  end.

(** ** The loop *)

Section Simulation.

(** [Timedelta.total_seconds()] of pandas, from the microseconds between two
    timestamps to a float of seconds. *)
Variable total_seconds : Z → float.

(** [(date - position['entry_datetime']).total_seconds() / (15 * 60)] *)
Definition holding_ticks (date entry : Z) : float :=
  (total_seconds (date - entry)%Z / 900)%float.

(** The exit block of the loop body. *)
Definition exit_step (config : Config) (st : State) (row : Row) : result State :=
  let date := timestamp row in
  let ticker := ticker row in
  let signal := signal row in
  let current_price := close row in
  match held_positions st !! ticker with
  | Some position =>
      pnl_pct ← py_div (current_price - p_entry_price position)
                        (p_entry_price position);
      let stop_loss_hit := (pnl_pct <=? - stop_loss_pct config)%float in
      let take_profit_hit := (take_profit_pct config <=? pnl_pct)%float in
      if (signal =? -1)%Z || stop_loss_hit || take_profit_hit then
        let exit_price := current_price in
        let pnl := (pnl_pct * p_cash position)%float in
        Ok {| trades := trades st ++ [
                {| t_ticker := ticker;
                   t_entry_datetime := p_entry_datetime position;
                   t_exit_datetime := date;
                   t_entry_price := round (p_entry_price position) 4;
                   t_exit_price := round exit_price 4;
                   t_return_pct := round (pnl_pct * 100) 4;
                   t_pnl := round pnl 2;
                   t_allocated_cash := round (p_cash position) 2;
                   t_shares := round (p_shares position) 4;
                   t_holding_ticks :=
                     holding_ticks date (p_entry_datetime position);
                   t_exit_reason := exit_reason signal stop_loss_hit |} ];
              cash := (cash st + (p_cash position + pnl))%float;
              held_positions := delete ticker (held_positions st);
              pnl_log := pnl_log st ++ [pnl] |}
      else Ok st
  | None => Ok st
  end.

(** The buy block of the loop body. *)
Definition entry_step (st : State) (row : Row) : result State :=
  let date := timestamp row in
  let ticker := ticker row in
  let signal := signal row in
  let current_price := close row in
  if (signal =? 1)%Z
     && negb (bool_decide (is_Some (held_positions st !! ticker)))
     && (0 <? cash st)%float
  then
    let cash_per_position := cash st in
    position_size ← py_div cash_per_position current_price;
    Ok {| trades := trades st;
          cash := (cash st - cash_per_position)%float;
          held_positions :=
            <[ ticker := {| p_entry_price := current_price;
                            p_entry_datetime := date;
                            p_cash := cash_per_position;
                            p_shares := position_size |} ]>
              (held_positions st);
          pnl_log := pnl_log st |}
  else Ok st.

(** One iteration of [for idx, row in df.iterrows()]. *)
Definition step (config : Config) (st : State) (row : Row) : result State :=
  st' ← exit_step config st row; entry_step st' row.

Fixpoint run (config : Config) (st : State) (rows : list Row) : result State :=
  match rows with
  | [] => Ok st
  | row :: rows' => st' ← step config st row; run config st' rows'
  end.

Definition init (initial_cash : float) : State :=
  {| cash := initial_cash; held_positions := ∅; trades := []; pnl_log := [] |}.

(** The state when the loop of [simulate_trades_with_risk] ends. *)
Definition simulate_state (df : list Row) (initial_cash : float)
    (config : Config) : result State :=
  run config (init initial_cash) (sort_values df).

(** As above, [config] stands for the configuration once lines 47-48 have
    read two floats from it. *)
Definition simulate_trades_with_risk (df : list Row) (initial_cash : float)
    (config : Config) : result (list Trade) :=
  st ← simulate_state df initial_cash config; ledger (trades st).

End Simulation.

(** ** Vocabulary of the statements *)

(** The local [pnl_pct] of the exit block. *)
Definition pnl_pct_of (row : Row) (p : Position) : float :=
  ((close row - p_entry_price p) / p_entry_price p)%float.

(** The guard [signal == -1 or stop_loss_hit or take_profit_hit]. *)
Definition exit_fires (config : Config) (row : Row) (p : Position) : bool :=
  (signal row =? -1)%Z
  || (pnl_pct_of row p <=? - stop_loss_pct config)%float
  || (take_profit_pct config <=? pnl_pct_of row p)%float.

(** The guard [signal == 1 and ticker not in held_positions and cash > 0]. *)
Definition entry_fires (st : State) (row : Row) : bool :=
  (signal row =? 1)%Z
  && negb (bool_decide (is_Some (held_positions st !! ticker row)))
  && (0 <? cash st)%float.

(** The dict appended to [trades] when [row] closes position [p]. *)
Definition trade_of (total_seconds : Z → float) (config : Config) (row : Row)
    (p : Position) : Trade :=
  {| t_ticker := ticker row;
     t_entry_datetime := p_entry_datetime p;
     t_exit_datetime := timestamp row;
     t_entry_price := round (p_entry_price p) 4;
     t_exit_price := round (close row) 4;
     t_return_pct := round (pnl_pct_of row p * 100) 4;
     t_pnl := round (pnl_pct_of row p * p_cash p) 2;
     t_allocated_cash := round (p_cash p) 2;
     t_shares := round (p_shares p) 4;
     t_holding_ticks :=
       holding_ticks total_seconds (timestamp row) (p_entry_datetime p);
     t_exit_reason :=
       exit_reason (signal row)
         (pnl_pct_of row p <=? - stop_loss_pct config)%float |}.

(** The state after [row] closes position [p]. *)
Definition closed (total_seconds : Z → float) (config : Config) (st : State)
    (row : Row) (p : Position) : State :=
  {| trades := trades st ++ [trade_of total_seconds config row p];
     cash := (cash st + (p_cash p + pnl_pct_of row p * p_cash p))%float;
     held_positions := delete (ticker row) (held_positions st);
     pnl_log := pnl_log st ++ [(pnl_pct_of row p * p_cash p)%float] |}.

(** The position a buy on [row] creates from [alloc] of cash. *)
Definition position_of (row : Row) (alloc : float) : Position :=
  {| p_entry_price := close row;
     p_entry_datetime := timestamp row;
     p_cash := alloc;
     p_shares := (alloc / close row)%float |}.

(** The state after a buy on [row]. *)
Definition opened (st : State) (row : Row) : State :=
  {| trades := trades st;
     cash := (cash st - cash st)%float;
     held_positions :=
       <[ ticker row := position_of row (cash st) ]> (held_positions st);
     pnl_log := pnl_log st |}.

(** Cash committed to the open positions: [position['cash']] added up over
    [held_positions], from 0. *)
Definition allocated (held : gmap string Position) : float :=
  foldr (λ kp acc, (p_cash kp.2 + acc)%float) 0%float (map_to_list held).

(** [initial_cash] with the amounts of [log] added to it one after the
    other: [((initial_cash + pnl_1) + pnl_2) + ...]. *)
Definition accumulated (initial_cash : float) (log : list float) : float :=
  fold_left PrimFloat.add log initial_cash.

(** [sum(l)]: the elements added up from 0, left to right. *)
Definition fsum (l : list float) : float := fold_left PrimFloat.add l 0%float.

(** The loop invariant behind capital conservation: with no position open,
    cash is the accumulated total, up to the sign of a zero, or a NaN; with
    a position open, the position holds that total and cash is what
    [cash - cash] left, 0 or a NaN. *)
Definition balanced (initial_cash : float) (st : State) : Prop :=
  let total := accumulated initial_cash (pnl_log st) in
  (held_positions st = ∅
   ∧ (is_nan (cash st) = true ∨ cash st = total ∨ cash st = (0 + total)%float))
  ∨ (∃ tk p, held_positions st = {[ tk := p ]}
       ∧ p_cash p = total ∧ (0 <? p_cash p)%float = true
       ∧ (cash st = 0%float ∨ is_nan (cash st) = true)).

(** Every trade record carries the 2-decimal rounding of the logged [pnl]. *)
Definition log_matches (st : State) : Prop :=
  Forall2 (λ t pnl, t_pnl t = round pnl 2) (trades st) (pnl_log st).

(** [t] is the record of a round trip that put [alloc] of cash into a ticker
    at bar [entry] and left at bar [exit]: every figure is computed in double
    precision from the two closes and [alloc], and rounded once, when the
    record is built. *)
Definition round_trip (total_seconds : Z → float) (entry exit : Row)
    (alloc : float) (t : Trade) : Prop :=
  let pnl_pct := ((close exit - close entry) / close entry)%float in
  ticker entry = ticker exit
  ∧ t_ticker t = ticker exit
  ∧ t_entry_datetime t = timestamp entry
  ∧ t_exit_datetime t = timestamp exit
  ∧ t_entry_price t = round (close entry) 4
  ∧ t_exit_price t = round (close exit) 4
  ∧ t_return_pct t = round (pnl_pct * 100) 4
  ∧ t_pnl t = round (pnl_pct * alloc) 2
  ∧ t_allocated_cash t = round alloc 2
  ∧ t_shares t = round (alloc / close entry) 4
  ∧ t_holding_ticks t
    = (total_seconds (timestamp exit - timestamp entry)%Z / 900)%float.

(** Every open position was bought on a bar of [df] at a nonzero close, and
    every recorded trade is a round trip between two bars of [df]. *)
Definition traced (total_seconds : Z → float) (df : list Row) (st : State)
  : Prop :=
  (∀ tk p, held_positions st !! tk = Some p →
     ∃ entry, entry ∈ df ∧ ticker entry = tk
              ∧ is_zero (close entry) = false
              ∧ p = position_of entry (p_cash p))
  ∧ Forall (λ t, ∃ entry exit alloc,
                   entry ∈ df ∧ exit ∈ df
                   ∧ round_trip total_seconds entry exit alloc t)
           (trades st).

(** ** Concrete inputs *)

(** Seconds of a whole number of microseconds, correctly rounded. *)
Definition seconds_of (us : Z) : float := (float_of_Z us / 1000000)%float.


Definition default_config : Config := mkConfig (mkRisk 0.05 0.15).

(** Two losing round trips of one ticker. *)

Definition drawdown_bars : list Row :=
  [mkRow 0 "ABC" 1 762.33; mkRow 900000000 "ABC" (-1) 86.88;
   mkRow 1800000000 "ABC" 1 794.77; mkRow 2700000000 "ABC" (-1) 18.25].

(** A hundredfold gain that is reinvested: with 1e308 of capital the gain
    exceeds the largest double. *)
Definition overflow_bars : list Row :=
  [mkRow 0 "ABC" 1 1; mkRow 900000000 "ABC" (-1) 100;
   mkRow 1800000000 "ABC" 1 100].

(** A buy at 256 sold at 136.23 one bar later. *)
Definition buy_at_256 : Row := mkRow 0 "ABC" 1 256.


Definition sell_at_136_23 : Row := mkRow 900000000 "ABC" (-1) 136.23.

Definition fall_bars : list Row := [buy_at_256; sell_at_136_23].

(** The state after ten million of cash bought "ABC" at 256. *)
Definition long_at_256 : State := opened (init 10000000) buy_at_256.

End Double.

(** * Properties *)

(** ** Arithmetic helpers *)

Lemma Qlt_bool_iff (x y : Q) : Qlt_bool x y = true ↔ x < y.
Proof.
  unfold Qlt_bool. rewrite negb_true_iff. split.
  - intros H. apply Qnot_le_lt. intros Hle.
    apply Qle_bool_iff in Hle. congruence.
  - intros H. destruct (Qle_bool y x) eqn:E; [|done].
    apply Qle_bool_iff in E. exfalso. by eapply Qlt_not_le.
Qed.


Lemma Qle_bool_false (x y : Q) : Qle_bool x y = false → y < x.
Proof.
  intros H. apply Qnot_le_lt. intros Hle.
  apply Qle_bool_iff in Hle. congruence.
Qed.

Lemma py_div_ok (a b : Q) : ¬ b == 0 → py_div a b = Ok (a / b).
Proof.
  intros Hb. unfold py_div.
  destruct (Qeq_bool b 0) eqn:E; [|done].
  by apply Qeq_bool_iff in E.
Qed.

Lemma py_div_zero (a b : Q) : b == 0 → py_div a b = Raise ZeroDivisionError.
Proof.
  intros Hb. unfold py_div. apply Qeq_bool_iff in Hb. by rewrite Hb.
Qed.

Lemma py_div_inv (a b q : Q) : py_div a b = Ok q → ¬ b == 0 ∧ q = a / b.
Proof.
  unfold py_div. destruct (Qeq_bool b 0) eqn:E; [done|].
  intros [= <-]. split; [|done].
  intros Hb. apply Qeq_bool_iff in Hb. congruence.
Qed.


(** ** The two blocks of the loop body, case by case *)

Lemma exit_step_flat (config : Config) (st : State) (row : SRow) :
  held_positions st !! row_ticker row = None → exit_step config st row = Ok st.
Proof. intros H. unfold exit_step. by rewrite H. Qed.

Lemma exit_step_held (config : Config) (st : State) (row : SRow) (p : Position) :
  held_positions st !! row_ticker row = Some p →
  ¬ p_entry_price p == 0 →
  exit_step config st row
  = Ok (if exit_fires config row p then closed config st row p else st).
Proof.
  intros H Hp. unfold exit_step. rewrite H.
  rewrite (py_div_ok _ _ Hp). cbn [mbind result_bind bind].
  unfold exit_fires, stop_loss_hit_of, take_profit_hit_of, pnl_pct_of.
  by destruct (_ || _ || _).
Qed.

Lemma exit_step_zero (config : Config) (st : State) (row : SRow) (p : Position) :
  held_positions st !! row_ticker row = Some p →
  p_entry_price p == 0 →
  exit_step config st row = Raise ZeroDivisionError.
Proof.
  intros H Hp. unfold exit_step. rewrite H.
  by rewrite (py_div_zero _ _ Hp).
Qed.

Lemma exit_step_inv (config : Config) (st st' : State) (row : SRow) :
  exit_step config st row = Ok st' →
  (held_positions st !! row_ticker row = None ∧ st' = st)
  ∨ ∃ p, held_positions st !! row_ticker row = Some p
         ∧ ¬ p_entry_price p == 0
         ∧ st' = if exit_fires config row p then closed config st row p else st.
Proof.
  intros H. destruct (held_positions st !! row_ticker row) as [p|] eqn:Hl.
  - right. exists p.
    destruct (Qeq_dec (p_entry_price p) 0) as [Hz|Hz].
    + by rewrite (exit_step_zero _ _ _ _ Hl Hz) in H.
    + rewrite (exit_step_held _ _ _ _ Hl Hz) in H. by injection H as <-.
  - left. rewrite (exit_step_flat _ _ _ Hl) in H. by injection H as <-.
Qed.

Lemma entry_step_skip (st : State) (row : SRow) :
  entry_fires st row = false → entry_step st row = Ok st.
Proof.
  unfold entry_fires, entry_step. by intros ->.
Qed.

Lemma entry_step_open (st : State) (row : SRow) :
  entry_fires st row = true → ¬ row_close row == 0 →
  entry_step st row = Ok (opened st row).
Proof.
  unfold entry_fires, entry_step. intros -> Hc.
  by rewrite (py_div_ok _ _ Hc).
Qed.

Lemma entry_step_zero (st : State) (row : SRow) :
  entry_fires st row = true → row_close row == 0 →
  entry_step st row = Raise ZeroDivisionError.
Proof.
  unfold entry_fires, entry_step. intros -> Hc.
  by rewrite (py_div_zero _ _ Hc).
Qed.

Lemma entry_step_inv (st st' : State) (row : SRow) :
  entry_step st row = Ok st' →
  (entry_fires st row = false ∧ st' = st)
  ∨ (entry_fires st row = true ∧ ¬ row_close row == 0 ∧ st' = opened st row).
Proof.
  intros H. destruct (entry_fires st row) eqn:Hf.
  - right. destruct (Qeq_dec (row_close row) 0) as [Hz|Hz].
    + by rewrite (entry_step_zero _ _ Hf Hz) in H.
    + rewrite (entry_step_open _ _ Hf Hz) in H. by injection H as <-.
  - left. rewrite (entry_step_skip _ _ Hf) in H. by injection H as <-.
Qed.

Lemma entry_fires_iff (st : State) (row : SRow) :
  entry_fires st row = true
  ↔ signal row = 1%Z ∧ held_positions st !! row_ticker row = None ∧ 0 < cash st.
Proof.
  unfold entry_fires. rewrite !andb_true_iff, negb_true_iff, Qlt_bool_iff.
  rewrite Z.eqb_eq, bool_decide_eq_false, <- eq_None_not_Some. tauto.
Qed.

Lemma step_inv (config : Config) (st st' : State) (row : SRow) :
  step config st row = Ok st' →
  ∃ st1, exit_step config st row = Ok st1 ∧ entry_step st1 row = Ok st'.
Proof.
  unfold step. destruct (exit_step config st row) as [st1|e]; [|done].
  intros H. by exists st1.
Qed.

Lemma run_app (config : Config) (st : State) (l1 l2 : list SRow) :
  run config st (l1 ++ l2) = (st' ← run config st l1; run config st' l2).
Proof.
  revert st. induction l1 as [|r l1 IH]; intros st; [done|].
  simpl. destruct (step config st r) as [st1|e]; [|done]. apply IH.
Qed.

(** An invariant of [step] holds after every prefix of the loop. *)
Lemma run_invariant (I : State → Prop) (config : Config) :
  (∀ st st' row, I st → step config st row = Ok st' → I st') →
  ∀ rows st st', I st → run config st rows = Ok st' → I st'.
Proof.
  intros Hstep rows. induction rows as [|r rows IH]; intros st st' HI Hrun.
  - by injection Hrun as <-.
  - simpl in Hrun. destruct (step config st r) as [st1|e] eqn:Hs; [|done].
    eapply IH; [|exact Hrun]. by eapply Hstep.
Qed.

(** ** At most one open position *)

Lemma step_single_position (config : Config) (st st' : State) (row : SRow) :
  single_position st → step config st row = Ok st' → single_position st'.
Proof.
  intros HI Hs. apply step_inv in Hs as (st1 & Hx & He).
  assert (single_position st1) as HI1.
  { apply exit_step_inv in Hx as [[_ ->]|(p & Hl & _ & ->)]; [done|].
    destruct (exit_fires config row p); [|done].
    left. cbn [held_positions closed].
    destruct HI as [HI|[HI _]]; [by rewrite HI in Hl|].
    apply map_size_empty_iff.
    rewrite map_size_delete_Some by eauto. by rewrite HI. }
  apply entry_step_inv in He as [[_ ->]|(Hf & _ & ->)]; [done|].
  apply entry_fires_iff in Hf as (_ & Hl & Hc).
  destruct HI1 as [HI1|[_ HI1]].
  - right. cbn [held_positions cash opened]. split; [|ring].
    rewrite HI1. by rewrite map_size_insert_None.
  - rewrite HI1 in Hc. by apply Qlt_irrefl in Hc.
Qed.



(** ** The stable sort *)

Lemma insert_by_perm {A : Type} (leb : A → A → bool) (x : A) (l : list A) :
  insert_by leb x l ≡ₚ x :: l.
Proof.
  induction l as [|y l IH]; simpl; [done|].
  destruct (leb x y); [done|].
  rewrite IH. apply perm_swap.
Qed.

Lemma stable_sort_perm {A : Type} (leb : A → A → bool) (l : list A) :
  stable_sort leb l ≡ₚ l.
Proof.
  induction l as [|x l IH]; simpl; [done|].
  fold (stable_sort leb l). by rewrite insert_by_perm, IH.
Qed.

Lemma insert_by_ssorted {A : Type} (leb : A → A → bool) (R : A → A → Prop) :
  Transitive R →
  (∀ x y, leb x y = true → R x y) →
  (∀ x y, leb x y = false → R y x) →
  ∀ x l, StronglySorted R l → StronglySorted R (insert_by leb x l).
Proof.
  intros Htrans Hle Htot x l. induction l as [|y l IH]; intros Hs; simpl.
  - by repeat constructor.
  - apply StronglySorted_inv in Hs as [Hs Hy].
    destruct (leb x y) eqn:E.
    + constructor; [by constructor|].
      constructor; [by apply Hle|].
      eapply Forall_impl; [exact Hy|]. intros z Hz.
      etrans; [|exact Hz]. by apply Hle.
    + constructor; [by apply IH|].
      rewrite insert_by_perm. constructor; [by apply Htot|done].
Qed.

Lemma stable_sort_ssorted {A : Type} (leb : A → A → bool) (R : A → A → Prop) :
  Transitive R →
  (∀ x y, leb x y = true → R x y) →
  (∀ x y, leb x y = false → R y x) →
  ∀ l, StronglySorted R (stable_sort leb l).
Proof.
  intros Htrans Hle Htot l. induction l as [|x l IH]; simpl.
  - constructor.
  - by apply insert_by_ssorted.
Qed.

(** *** The string order is a total preorder *)

Lemma string_compare_OT (a b : string) :
  OrdersEx.String_as_OT.compare a b = String.compare a b.
Proof.
  revert b. induction a as [|x a IH]; intros [|y b]; simpl; try done.
  all: by rewrite IH.
Qed.

Lemma string_compare_refl (a : string) : String.compare a a = Eq.
Proof.
  pose proof (String.compare_antisym a a) as H.
  by destruct (String.compare a a).
Qed.

Lemma string_leb_iff (a b : string) :
  String.leb a b = true ↔ a = b ∨ String.compare a b = Lt.
Proof.
  unfold String.leb. destruct (String.compare a b) eqn:E.
  - apply String.compare_eq_iff in E. naive_solver.
  - naive_solver.
  - split; [done|]. intros [->|]; [|done].
    rewrite string_compare_refl in E. congruence.
Qed.

Lemma string_leb_refl (a : string) : String.leb a a = true.
Proof. apply string_leb_iff. by left. Qed.

Lemma string_leb_trans (a b c : string) :
  String.leb a b = true → String.leb b c = true → String.leb a c = true.
Proof.
  rewrite !string_leb_iff. intros [->|Hab] [->|Hbc]; auto.
  right. rewrite <- string_compare_OT in *.
  by apply (transitivity (R := OrdersEx.String_as_OT.lt) Hab Hbc).
Qed.

Lemma string_leb_false (a b : string) :
  String.leb a b = false → String.leb b a = true.
Proof.
  intros H. destruct (String.leb_total a b) as [H'|H']; [congruence|done].
Qed.


(** *** The row order *)

Lemma key_leb_iff (r1 r2 : SRow) :
  key_leb r1 r2 = true
  ↔ (row_timestamp r1 < row_timestamp r2)%Z
    ∨ (row_timestamp r1 = row_timestamp r2
       ∧ String.leb (row_ticker r1) (row_ticker r2) = true).
Proof.
  unfold key_leb.
  rewrite orb_true_iff, andb_true_iff, Z.ltb_lt, Z.eqb_eq. tauto.
Qed.

Lemma key_le_trans : Transitive key_le.
Proof.
  intros x y z. unfold key_le. rewrite !key_leb_iff.
  intros [H1|[H1 L1]] [H2|[H2 L2]]; try (left; lia).
  right. split; [lia|]. by eapply string_leb_trans.
Qed.

Lemma key_leb_false (r1 r2 : SRow) : key_leb r1 r2 = false → key_le r2 r1.
Proof.
  intros H. unfold key_le. apply key_leb_iff.
  destruct (Z.lt_trichotomy (row_timestamp r1) (row_timestamp r2))
    as [Hlt|[Heq|Hgt]].
  - assert (key_leb r1 r2 = true) by (apply key_leb_iff; by left). congruence.
  - right. split; [done|]. apply string_leb_false.
    destruct (String.leb (row_ticker r1) (row_ticker r2)) eqn:E; [|done].
    assert (key_leb r1 r2 = true) by (apply key_leb_iff; by right). congruence.
  - by left.
Qed.

Lemma key_le_ts_le (r1 r2 : SRow) : key_le r1 r2 → ts_le r1 r2.
Proof.
  unfold key_le, ts_le. rewrite key_leb_iff. lia.
Qed.

Lemma sort_values_perm (df : list SRow) : sort_values df ≡ₚ df.
Proof. apply stable_sort_perm. Qed.

Lemma sort_values_sorted (df : list SRow) : StronglySorted key_le (sort_values df).
Proof.
  apply stable_sort_ssorted; [apply key_le_trans|done|apply key_leb_false].
Qed.

(** ** Exits come strictly after entries *)

Lemma holding_ticks_pos (date entry : Z) :
  (entry < date)%Z → 0 < holding_ticks date entry.
Proof.
  intros H. unfold holding_ticks.
  assert (0 < inject_Z (date - entry)) as Hd.
  { change 0 with (inject_Z 0). rewrite <- Zlt_Qlt. lia. }
  apply Qlt_shift_div_l; [done|].
  apply Qlt_shift_div_l; [done|]. lra.
Qed.

Lemma later_same_ticker (r : SRow) (rows : list SRow) :
  StronglySorted ts_le (r :: rows) → NoDup (key <$> r :: rows) →
  Forall (λ r', row_ticker r' = row_ticker r
                → (row_timestamp r < row_timestamp r')%Z) rows.
Proof.
  intros Hs Hnd. apply StronglySorted_inv in Hs as [_ Hle].
  rewrite fmap_cons in Hnd. apply NoDup_cons in Hnd as [Hnotin _].
  apply Forall_forall. intros r' Hin Htk.
  rewrite Forall_forall in Hle. specialize (Hle r' Hin). unfold ts_le in Hle.
  destruct (decide (row_timestamp r = row_timestamp r')) as [Heq|]; [|lia].
  exfalso. apply Hnotin. apply list_elem_of_fmap. exists r'.
  split; [|done]. unfold key. by rewrite Heq, Htk.
Qed.

Lemma entries_before_tail (st : State) (r : SRow) (rows : list SRow) :
  entries_before st (r :: rows) → entries_before st rows.
Proof.
  intros Hb tk p Hl. specialize (Hb tk p Hl).
  by apply Forall_cons in Hb as [_ ?].
Qed.

Lemma entries_before_head (st : State) (r : SRow) (rows : list SRow)
    (p : Position) :
  entries_before st (r :: rows) →
  held_positions st !! row_ticker r = Some p →
  (p_entry_datetime p < row_timestamp r)%Z.
Proof.
  intros Hb Hl. specialize (Hb _ p Hl).
  apply Forall_cons in Hb as [Hr _]. by apply Hr.
Qed.

Lemma step_trades_forward (config : Config) (st st' : State) (r : SRow)
    (rows : list SRow) :
  Forall (λ r', row_ticker r' = row_ticker r
                → (row_timestamp r < row_timestamp r')%Z) rows →
  entries_before st (r :: rows) → trades_forward st →
  step config st r = Ok st' →
  entries_before st' rows ∧ trades_forward st'.
Proof.
  intros Hlater Hb Hf Hs. apply step_inv in Hs as (st1 & Hx & He).
  pose proof (entries_before_tail _ _ _ Hb) as Hbt.
  assert (entries_before st1 rows ∧ trades_forward st1) as [Hb1 Hf1].
  { apply exit_step_inv in Hx as [[_ ->]|(p & Hl & _ & ->)]; [done|].
    destruct (exit_fires config r p); [|done]. split.
    - intros tk q Hq. cbn [held_positions closed] in Hq.
      apply lookup_delete_Some in Hq as [_ Hq]. by apply Hbt.
    - unfold trades_forward. cbn [trades closed].
      apply Forall_app. split; [done|].
      constructor; [|constructor]. cbn. split; [|done].
      by eapply entries_before_head. }
  apply entry_step_inv in He as [[_ ->]|(_ & _ & ->)]; [done|].
  split; [|done].
  intros tk q Hq. cbn [held_positions opened] in Hq.
  apply lookup_insert_Some in Hq as [[<- <-]|[_ Hq]].
  - cbn [p_entry_datetime position_of]. exact Hlater.
  - by apply Hb1.
Qed.

Lemma run_trades_forward (config : Config) (rows : list SRow) :
  ∀ st st',
    StronglySorted ts_le rows → NoDup (key <$> rows) →
    entries_before st rows → trades_forward st →
    run config st rows = Ok st' → trades_forward st'.
Proof.
  induction rows as [|r rows IH]; intros st st' Hs Hnd Hb Hf Hrun.
  - by injection Hrun as <-.
  - simpl in Hrun. destruct (step config st r) as [st1|e] eqn:Hstep; [|done].
    pose proof (later_same_ticker _ _ Hs Hnd) as Hlater.
    destruct (step_trades_forward _ _ _ _ _ Hlater Hb Hf Hstep) as [Hb1 Hf1].
    apply StronglySorted_inv in Hs as [Hs _].
    rewrite fmap_cons in Hnd. apply NoDup_cons in Hnd as [_ Hnd].
    by eapply IH.
Qed.

Lemma sort_values_ts_sorted (df : list SRow) :
  StronglySorted ts_le (sort_values df).
Proof.
  apply stable_sort_ssorted.
  - intros x y z. unfold ts_le. lia.
  - intros x y H. by apply key_le_ts_le.
  - intros x y H. by apply key_le_ts_le, key_leb_false.
Qed.

Lemma ledger_elem (ts l : list Trade) (t : Trade) :
  ledger ts = Ok l → t ∈ l → t ∈ ts.
Proof.
  destruct ts as [|t0 ts]; [done|]. unfold ledger. intros [= <-] Hin.
  by rewrite <- (stable_sort_perm entry_leb (t0 :: ts)).
Qed.

Lemma simulate_inv (df : list SRow) (ic : Q) (config : Config) (l : list Trade) :
  simulate_trades_with_risk df ic config = Ok l →
  ∃ st, run config (init ic) (sort_values df) = Ok st ∧ ledger (trades st) = Ok l.
Proof.
  unfold simulate_trades_with_risk, simulate_state.
  destruct (run config (init ic) (sort_values df)) as [st|e]; [|done].
  intros H. by exists st.
Qed.

(** C10: when every (timestamp, ticker) pair occurs at most once in the
    input, every trade of the returned ledger has its exit datetime strictly
    after its entry datetime, and a positive [holding_ticks]. *)
Theorem exit_after_entry (df : list SRow) (initial_cash : Q) (config : Config)
    (l : list Trade) (t : Trade) :
  NoDup (key <$> df) →
  simulate_trades_with_risk df initial_cash config = Ok l →
  t ∈ l →
  (t_entry_datetime t < t_exit_datetime t)%Z ∧ 0 < t_holding_ticks t.
Proof.
  intros Hnd Hsim Hin. apply simulate_inv in Hsim as (st & Hrun & Hl).
  assert (trades_forward st) as Hf.
  { eapply run_trades_forward; [apply sort_values_ts_sorted| | | |exact Hrun].
    - by rewrite sort_values_perm.
    - intros tk p Hp. cbn [held_positions init] in Hp.
      by rewrite lookup_empty in Hp.
    - constructor. }
  unfold trades_forward in Hf. rewrite Forall_forall in Hf.
  destruct (Hf t) as [Hlt Hh].
  { by eapply ledger_elem. }
  split; [done|]. rewrite Hh. by apply holding_ticks_pos.
Qed.

(** ** Exit reasons *)


Lemma exit_reason_in_labels (sig : Z) (hit : bool) :
  exit_reason sig hit ∈ exit_labels.
Proof.
  unfold exit_reason, exit_labels.
  destruct (sig =? -1)%Z, hit; set_solver.
Qed.

Lemma step_trades_labelled (config : Config) (st st' : State) (row : SRow) :
  Forall (λ t, t_exit_reason t ∈ exit_labels) (trades st) →
  step config st row = Ok st' →
  Forall (λ t, t_exit_reason t ∈ exit_labels) (trades st').
Proof.
  intros HI Hs. apply step_inv in Hs as (st1 & Hx & He).
  assert (Forall (λ t, t_exit_reason t ∈ exit_labels) (trades st1)) as HI1.
  { apply exit_step_inv in Hx as [[_ ->]|(p & _ & _ & ->)]; [done|].
    destruct (exit_fires config row p); [|done]. cbn [trades closed].
    apply Forall_app. split; [done|].
    constructor; [|constructor]. apply exit_reason_in_labels. }
  by apply entry_step_inv in He as [[_ ->]|(_ & _ & ->)].
Qed.



(** ** Rounding respects the value of a rational *)

Lemma round_half_even_comp (x y : Q) :
  x == y → round_half_even x = round_half_even y.
Proof.
  intros H. unfold round_half_even, Qlt_bool.
  rewrite (Qfloor_comp _ _ H).
  assert (x - inject_Z (Qfloor y) == y - inject_Z (Qfloor y)) as Hr
    by (by rewrite H).
  by rewrite !(Qleb_comp _ _ (Qeq_refl _) _ _ Hr), !(Qleb_comp _ _ Hr _ _ (Qeq_refl _)).
Qed.

Lemma round_comp (x y : Q) (n : nat) : x == y → round x n == round y n.
Proof.
  intros H. unfold round.
  rewrite (round_half_even_comp (x * pow10 n) (y * pow10 n)); [reflexivity|].
  by rewrite H.
Qed.

(** ** The empty ledger *)





(** The empty bar stream is such an input. *)
Lemma simulate_empty (initial_cash : Q) (config : Config) :
  simulate_trades_with_risk [] initial_cash config
  = Raise (KeyError "entry_datetime").
Proof. reflexivity. Qed.

(** A returned ledger is never empty. *)
Lemma simulate_ok_nonempty (df : list SRow) (ic : Q) (config : Config)
    (l : list Trade) :
  simulate_trades_with_risk df ic config = Ok l → l ≠ [].
Proof.
  intros Hsim. apply simulate_inv in Hsim as (st & _ & Hl).
  destruct (trades st) as [|t ts] eqn:E; [done|].
  injection Hl as <-. intros Hnil.
  pose proof (stable_sort_perm entry_leb (t :: ts)) as Hp.
  change (stable_sort entry_leb (t :: ts) = []) in Hnil.
  rewrite Hnil in Hp. by apply Permutation_nil_cons in Hp.
Qed.

(** ** Processing order and entries *)






(** ** The rolling mean *)

Lemma Qsum_take_snoc (l : list Q) (n : nat) :
  Qsum (take (S n) l) == Qsum (take n l) + nth n l 0.
Proof.
  revert n. induction l as [|y l IH]; intros n.
  - destruct n; simpl; ring.
  - destruct n as [|n]; simpl.
    + ring.
    + fold (Qsum (take (S n) l)). fold (Qsum (take n l)). rewrite IH. ring.
Qed.

Lemma nth_drop_Q (l : list Q) (lo n : nat) :
  nth n (drop lo l) 0 = nth (lo + n) l 0.
Proof.
  revert l. induction lo as [|lo IH]; intros l; [done|].
  destruct l as [|y l]; simpl.
  - by destruct n.
  - apply IH.
Qed.

Lemma Qsum_take_drop_head (l : list Q) (lo n : nat) :
  Qsum (take (S n) (drop lo l)) == nth lo l 0 + Qsum (take n (drop (S lo) l)).
Proof.
  revert lo. induction l as [|y l IH]; intros lo.
  - destruct lo, n; simpl; ring.
  - destruct lo as [|lo]; simpl.
    + rewrite drop_0. reflexivity.
    + apply IH.
Qed.

Lemma cell_eq_refl (x : option Q) : cell_eq x x.
Proof. destruct x; simpl; [reflexivity|done]. Qed.

Lemma roll_mean_step_sum (w i : nat) (values : list Q) (sum_x x : Q) :
  (1 ≤ w)%nat →
  nth i values 0 = x →
  sum_x == Qsum (take (i - (i - w)) (drop (i - w) values)) →
  (if (w <=? i)%nat then sum_x - nth (i - w) values 0 else sum_x) + x
  == Qsum (take (S i - (S i - w)) (drop (S i - w) values)).
Proof.
  intros Hw Hx Hsum. destruct (w <=? i)%nat eqn:E.
  - apply Nat.leb_le in E.
    replace (S i - w)%nat with (S (i - w)) by lia.
    replace (S i - S (i - w))%nat with (S (w - 1)) by lia.
    replace (i - (i - w))%nat with (S (w - 1)) in Hsum by lia.
    rewrite Qsum_take_drop_head in Hsum.
    rewrite Qsum_take_snoc, nth_drop_Q.
    replace (S (i - w) + (w - 1))%nat with i by lia.
    rewrite Hx, Hsum. ring.
  - apply Nat.leb_gt in E.
    replace (S i - w)%nat with 0%nat by lia.
    replace (i - w)%nat with 0%nat in Hsum by lia.
    rewrite Nat.sub_0_r in *. rewrite drop_0 in *.
    by rewrite Qsum_take_snoc, Hx, Hsum.
Qed.

Lemma roll_mean_spec (w : nat) (values : list Q) :
  (1 ≤ w)%nat →
  ∀ (todo : list Q) (i : nat) (sum_x : Q) (nobs : nat),
    todo = drop i values →
    nobs = (i - (i - w))%nat →
    sum_x == Qsum (take nobs (drop (i - w) values)) →
    ∀ k, (k < length todo)%nat →
      ∃ r, roll_mean w values i todo sum_x nobs !! k = Some r
           ∧ cell_eq r (sma_spec w values (i + k)).
Proof.
  intros Hw todo. induction todo as [|x todo IH];
    intros i sum_x nobs Htodo Hn Hsum k Hk; [simpl in Hk; lia|].
  assert (nth i values 0 = x) as Hx.
  { rewrite <- (Nat.add_0_r i), <- nth_drop_Q, <- Htodo. done. }
  assert (todo = drop (S i) values) as Htodo'.
  { rewrite <- Nat.add_1_r, <- drop_drop, <- Htodo. done. }
  subst nobs.
  pose proof (roll_mean_step_sum w i values sum_x x Hw Hx Hsum) as Hsum'.
  cbn [roll_mean].
  set (sum' := (if (w <=? i)%nat then sum_x - nth (i - w) values 0 else sum_x) + x) in *.
  set (nobs1 := if (w <=? i)%nat then Nat.pred (i - (i - w)) else (i - (i - w))%nat).
  assert ((let '(sum_x0, nobs) :=
             if (w <=? i)%nat
             then (sum_x - nth (i - w) values 0, Nat.pred (i - (i - w)))
             else (sum_x, (i - (i - w))%nat) in
           calc_mean w (S nobs) (sum_x0 + x)
             :: roll_mean w values (S i) todo (sum_x0 + x) (S nobs))
          = calc_mean w (S nobs1) sum'
              :: roll_mean w values (S i) todo sum' (S nobs1)) as ->.
  { unfold sum', nobs1. by destruct (w <=? i)%nat. }
  assert (S nobs1 = (S i - (S i - w))%nat) as Hn'.
  { unfold nobs1. destruct (w <=? i)%nat eqn:E.
    - apply Nat.leb_le in E. lia.
    - apply Nat.leb_gt in E. lia. }
  destruct k as [|k].
  - eexists. split; [reflexivity|].
    rewrite Nat.add_0_r, Hn'. unfold calc_mean, sma_spec, trailing_window.
    rewrite Nat.add_1_r.
    destruct (S i <? w)%nat eqn:E.
    + apply Nat.ltb_lt in E.
      replace (w <=? S i - (S i - w))%nat with false; [done|].
      symmetry. apply Nat.leb_gt. lia.
    + apply Nat.ltb_ge in E.
      replace (w <=? S i - (S i - w))%nat with true
        by (symmetry; apply Nat.leb_le; lia).
      replace (0 <? S i - (S i - w))%nat with true
        by (symmetry; apply Nat.ltb_lt; lia).
      simpl. rewrite Hsum'.
      replace (S i - (S i - w))%nat with w by lia. reflexivity.
  - simpl in Hk.
    destruct (IH (S i) sum' (S nobs1) Htodo' Hn') with (k := k) as (r & Hr & Hc).
    + by rewrite Hn'.
    + lia.
    + exists r. split; [done|].
      by replace (i + S k)%nat with (S i + k)%nat by lia.
Qed.

Lemma rolling_mean_spec (w : nat) (values : list Q) (i : nat) :
  (1 ≤ w)%nat → (i < length values)%nat →
  ∃ r, rolling_mean w values !! i = Some r ∧ cell_eq r (sma_spec w values i).
Proof.
  intros Hw Hi. unfold rolling_mean. destruct w as [|w]; [lia|].
  by apply (roll_mean_spec (S w) values Hw values 0 0 0).
Qed.

Lemma round4_cell_eq (x y : option Q) :
  cell_eq x y → cell_eq (round4 x) (round4 y).
Proof.
  destruct x, y; simpl; try done. apply round_comp.
Qed.

Lemma ma_cell_spec (w : nat) (closes : list Q) (i : nat) :
  (1 ≤ w)%nat → (i < length closes)%nat →
  ((i + 1 < w)%nat → round4 (cell (rolling_mean w closes) i) = None)
  ∧ ((w ≤ i + 1)%nat →
     ∃ m, round4 (cell (rolling_mean w closes) i) = Some m
          ∧ m == round (Qsum (trailing_window w i closes)
                        / inject_Z (Z.of_nat w)) 4).
Proof.
  intros Hw Hi.
  destruct (rolling_mean_spec w closes i Hw Hi) as (r & Hr & Hc).
  unfold cell. rewrite Hr. change (default None (Some r)) with r.
  apply round4_cell_eq in Hc. unfold sma_spec in Hc. split.
  - intros Hlt. apply Nat.ltb_lt in Hlt. rewrite Hlt in Hc.
    destruct (round4 r); [|done]. by simpl in Hc.
  - intros Hge. apply Nat.ltb_ge in Hge. rewrite Hge in Hc.
    destruct (round4 r) as [m|]; [|by simpl in Hc]. by exists m.
Qed.

Lemma compute_group_indicators_lookup (ta : TaLib) (sw lw : nat)
    (group : list Bar) (i : nat) (b : Bar) :
  sort_index group !! i = Some b →
  ∃ r, compute_group_indicators ta sw lw group !! i = Some r
       ∧ bar r = b
       ∧ short_ma (ind r)
         = round4 (cell (rolling_mean sw (close <$> sort_index group)) i)
       ∧ long_ma (ind r)
         = round4 (cell (rolling_mean lw (close <$> sort_index group)) i).
Proof.
  intros Hb. unfold compute_group_indicators.
  rewrite list_lookup_imap, Hb. cbn. eexists. by split_and!.
Qed.

(** ** Partitioning by ticker *)

Lemma filter_disjoint_app {A : Type} (P1 P2 : A → Prop)
    `{!∀ x, Decision (P1 x)} `{!∀ x, Decision (P2 x)} (l : list A) :
  (∀ x, P1 x → P2 x → False) →
  filter P1 l ++ filter P2 l ≡ₚ filter (λ x, P1 x ∨ P2 x) l.
Proof.
  intros Hdisj. induction l as [|x l IH]; [done|].
  rewrite !filter_cons.
  destruct (decide (P1 x)) as [H1|H1], (decide (P2 x)) as [H2|H2].
  - by destruct (Hdisj x).
  - rewrite decide_True by auto. simpl. by rewrite IH.
  - rewrite decide_True by auto.
    rewrite <- Permutation_middle. by rewrite IH.
  - rewrite decide_False by tauto. done.
Qed.

Lemma partition_perm {A : Type} (by_ticker : A → string) (tickers : list string)
    (df : list A) :
  NoDup tickers →
  mjoin ((λ tk, filter (λ r, by_ticker r = tk) df) <$> tickers)
  ≡ₚ filter (λ r, by_ticker r ∈ tickers) df.
Proof.
  induction 1 as [|tk tickers Hnotin Hnd IH]; simpl.
  - induction df as [|x df IHdf]; [done|].
    rewrite filter_cons_False; [done|]. apply not_elem_of_nil.
  - rewrite IH. rewrite filter_disjoint_app.
    + erewrite list_filter_iff; [done|].
      intros x. simpl. rewrite elem_of_cons. done.
    + intros x -> Hin. done.
Qed.

Lemma tickers_NoDup {A : Type} (by_ticker : A → string) (df : list A) :
  NoDup (stable_sort String.leb (remove_dups (by_ticker <$> df))).
Proof.
  rewrite stable_sort_perm. apply NoDup_remove_dups.
Qed.

Lemma tickers_elem {A : Type} (by_ticker : A → string) (df : list A) (tk : string) :
  tk ∈ stable_sort String.leb (remove_dups (by_ticker <$> df))
  ↔ tk ∈ by_ticker <$> df.
Proof.
  rewrite stable_sort_perm. apply elem_of_remove_dups.
Qed.

(** The partitions cover the frame: every row is in exactly one of them. *)
Lemma groups_perm {A : Type} (by_ticker : A → string) (df : list A) :
  mjoin ((λ tk, filter (λ r, by_ticker r = tk) df)
           <$> stable_sort String.leb (remove_dups (by_ticker <$> df)))
  ≡ₚ df.
Proof.
  rewrite partition_perm by apply tickers_NoDup.
  induction df as [|x df IH] using rev_ind; [done|].
  rewrite filter_app.
  assert (∀ l : list A, (∀ y, y ∈ l → y ∈ df ++ [x]) →
            filter (λ r, by_ticker r ∈ stable_sort String.leb
                           (remove_dups (by_ticker <$> df ++ [x]))) l = l) as Hall.
  { induction l as [|y l IHl]; intros Hsub; [done|].
    rewrite filter_cons_True.
    - rewrite IHl; [done|]. intros z Hz. apply Hsub. by right.
    - apply tickers_elem, list_elem_of_fmap. exists y. split; [done|].
      apply Hsub. by left. }
  rewrite (Hall df), (Hall [x]); [done| |].
  - intros y Hy. apply elem_of_app. by right.
  - intros y Hy. apply elem_of_app. by left.
Qed.

Lemma groupby_apply_fmap {A B : Type} (by_ticker : A → string) (g : A → B)
    (df : list A) :
  groupby_apply by_ticker (fmap g) df ≡ₚ g <$> df.
Proof.
  unfold groupby_apply.
  rewrite <- (groups_perm by_ticker df) at 2.
  induction (stable_sort String.leb (remove_dups (by_ticker <$> df)))
    as [|tk tks IH]; [done|].
  simpl. by rewrite fmap_app, IH.
Qed.

Lemma groupby_apply_elem {A B : Type} (by_ticker : A → string)
    (f : list A → list B) (df : list A) (r : B) :
  r ∈ groupby_apply by_ticker f df
  ↔ ∃ tk, tk ∈ by_ticker <$> df ∧ r ∈ f (filter (λ x, by_ticker x = tk) df).
Proof.
  unfold groupby_apply. rewrite list_elem_of_join. split.
  - intros (l & Hr & Hl). apply list_elem_of_fmap in Hl as (tk & -> & Htk).
    exists tk. split; [|done]. by apply tickers_elem in Htk.
  - intros (tk & Htk & Hr). eexists. split; [exact Hr|].
    apply list_elem_of_fmap. exists tk. split; [done|]. by apply tickers_elem.
Qed.

(** ** Signals *)

(** C5: every row that [evaluate_signals] returns has [signal] = 1 when only
    the buy condition holds, -1 when only the sell condition holds, 0 when
    neither holds, and -1 when both hold (the sell assignment comes last);
    the returned rows are the input rows, each once. *)
Theorem sell_overrides_buy (logic : Logic) (df : list IRow) :
  Forall (λ r,
            buy r = buy_condition logic (irow r)
            ∧ sell r = sell_condition logic (irow r)
            ∧ signal r = match buy r, sell r with
                         | true, false => 1%Z
                         | false, true => (-1)%Z
                         | false, false => 0%Z
                         | true, true => (-1)%Z
                         end)
         (evaluate_signals df logic)
  ∧ irow <$> evaluate_signals df logic ≡ₚ df.
Proof.
  unfold evaluate_signals, compute_signals.
  set (g := λ r, {| irow := r; buy := _; sell := _; signal := _ |}).
  pose proof (groupby_apply_fmap (λ r, ticker (bar r)) g df) as Hp.
  split.
  - rewrite Hp. apply Forall_fmap, Forall_forall. intros r _. simpl.
    by destruct (buy_condition logic r), (sell_condition logic r).
  - rewrite Hp, <- list_fmap_compose.
    change (irow ∘ g <$> df) with (id <$> df). by rewrite list_fmap_id.
Qed.

(** ** Dropping the warmup rows *)

Lemma groupby_apply_perm {A B : Type} (by_ticker : A → string)
    (f : list A → list B) (h : B → A) (df : list A) :
  (∀ group, h <$> f group ≡ₚ group) →
  h <$> groupby_apply by_ticker f df ≡ₚ df.
Proof.
  intros Hf. unfold groupby_apply.
  rewrite <- (groups_perm by_ticker df) at 2.
  induction (stable_sort String.leb (remove_dups (by_ticker <$> df)))
    as [|tk tks IH]; [done|].
  simpl. by rewrite fmap_app, IH, Hf.
Qed.

Lemma compute_group_indicators_bars (ta : TaLib) (sw lw : nat) (group : list Bar) :
  bar <$> compute_group_indicators ta sw lw group = sort_index group.
Proof.
  unfold compute_group_indicators. apply list_eq. intros i.
  rewrite list_lookup_fmap, list_lookup_imap.
  by destruct (sort_index group !! i).
Qed.

(** Before [dropna] the frame holds one row per input bar. *)
Lemma indicator_rows_bars (ta : TaLib) (df : list Bar) (config : Config) :
  bar <$> indicator_rows ta df config ≡ₚ df.
Proof.
  unfold indicator_rows. apply groupby_apply_perm. intros group.
  rewrite compute_group_indicators_bars. apply stable_sort_perm.
Qed.

Lemma has_moving_averages_iff (r : IRow) :
  has_moving_averages r = true
  ↔ is_Some (short_ma (ind r)) ∧ is_Some (long_ma (ind r)).
Proof.
  unfold has_moving_averages.
  by rewrite andb_true_iff, !bool_decide_eq_true.
Qed.

(** C8: on a non-empty frame [compute_indicators] returns exactly the
    computed rows that have both [short_ma] and [long_ma]; a computed row
    with both moving averages is returned also when its RSI, MACD, MACD
    signal or Bollinger cells are undefined. *)
Theorem dropna_moving_averages_only (ta : TaLib) (df : list Bar)
    (config : Config) :
  df ≠ [] →
  ∃ out,
    compute_indicators ta df config = Ok out
    ∧ (∀ r, r ∈ out
            ↔ r ∈ indicator_rows ta df config
              ∧ is_Some (short_ma (ind r)) ∧ is_Some (long_ma (ind r)))
    ∧ (∀ r, r ∈ indicator_rows ta df config →
            is_Some (short_ma (ind r)) → is_Some (long_ma (ind r)) →
            rsi (ind r) = None ∨ macd (ind r) = None
            ∨ macd_signal (ind r) = None ∨ bb_upper (ind r) = None
            ∨ bb_lower (ind r) = None ∨ bb_middle (ind r) = None →
            r ∈ out)
    ∧ bar <$> indicator_rows ta df config ≡ₚ df.
Proof.
  intros Hne. destruct df as [|b df]; [done|].
  eexists. split; [reflexivity|].
  split_and!.
  - intros r. rewrite list_elem_of_filter, has_moving_averages_iff. tauto.
  - intros r Hin Hs Hl _.
    apply list_elem_of_filter. by rewrite has_moving_averages_iff.
  - apply indicator_rows_bars.
Qed.

Lemma dropna_moving_averages_only_witness :
  ∃ out r,
    compute_indicators ta_warmup ramp_bars small_windows = Ok out
    ∧ r ∈ out
    ∧ short_ma (ind r) = Some (round (6 # 3) 4)
    ∧ rsi (ind r) = None
    ∧ length out = 2%nat.
Proof.
  destruct (dropna_moving_averages_only ta_warmup ramp_bars small_windows)
    as (out & Hout & Hiff & Hkeep & _); [done|].
  exists out.
  assert (∃ r, indicator_rows ta_warmup ramp_bars small_windows !! 2%nat = Some r)
    as [r Hr] by (eexists; vm_compute; reflexivity).
  exists r. split; [exact Hout|].
  pose proof Hr as Hr'. vm_compute in Hr'. injection Hr' as Hr'.
  split.
  - apply Hkeep.
    + eapply list_elem_of_lookup_2, Hr.
    + rewrite <- Hr'. by eexists.
    + rewrite <- Hr'. by eexists.
    + left. by rewrite <- Hr'.
  - rewrite <- Hr'. split_and!; try reflexivity.
    vm_compute in Hout. by injection Hout as <-.
Defined.

(** ** The theorems at concrete inputs *)




Lemma exit_after_entry_witness :
  ∃ l t, simulate_trades_with_risk thirds_bars 1000 default_config = Ok l
         ∧ t ∈ l
         ∧ (t_entry_datetime t < t_exit_datetime t)%Z
         ∧ 0 < t_holding_ticks t.
Proof.
  destruct (simulate_trades_with_risk thirds_bars 1000 default_config)
    as [l|e] eqn:Hsim; [|vm_compute in Hsim; discriminate].
  destruct l as [|t l]; [vm_compute in Hsim; discriminate|].
  exists (t :: l), t. split; [reflexivity|]. split; [by left|].
  apply (exit_after_entry thirds_bars 1000 default_config (t :: l) t).
  - apply (bool_decide_unpack _). vm_compute. reflexivity.
  - exact Hsim.
  - by left.
Defined.

(** Without distinct (timestamp, ticker) pairs the conclusion of C10 can
    fail: a second row of the same bar closes the position it follows at the
    entry's own timestamp. *)
Lemma duplicate_bar_exits_at_entry :
  ∃ t, simulate_trades_with_risk
         [srow "ABC" 0 100 1; srow "ABC" 0 100 (-1)] 1000 default_config
       = Ok [t]
       ∧ t_exit_datetime t = t_entry_datetime t.
Proof.
  eexists. split; [vm_compute; reflexivity|]. reflexivity.
Qed.

(** ** The end-to-end scenarios of the specification *)

(** Scenario A: one ticker, closes 100, 110, 90 with signals Buy, Hold, Sell
    and thresholds never reached before the Sell: one trade, final cash 900. *)
Example scenario_A :
  ∃ st t,
    simulate_state
      [srow "ABC" 0 100 1; srow "ABC" tick 110 0; srow "ABC" (2 * tick) 90 (-1)]
      1000 (mkConfig (mkParams None None) (mkRisk (1 # 2) (1 # 2))) = Ok st
    ∧ trades st = [t]
    ∧ t_entry_price t == 100 ∧ t_exit_price t == 90
    ∧ t_return_pct t == -10 ∧ t_pnl t == -100
    ∧ t_allocated_cash t == 1000
    ∧ cash st == 900.
Proof.
  eexists. eexists. split; [vm_compute; reflexivity|].
  split; [reflexivity|]. by split_and!.
Qed.

(** Scenario B: stop loss 5%, entry at 100, next close 94 with signal Hold. *)
Example scenario_B :
  ∃ t, simulate_trades_with_risk
         [srow "ABC" 0 100 1; srow "ABC" tick 94 0] 1000 default_config = Ok [t]
       ∧ t_exit_reason t = "Stop loss raised"
       ∧ t_return_pct t == -6.
Proof.
  eexists. split; [vm_compute; reflexivity|]. by split.
Qed.

(** Scenario C: take profit 15%, entry at 100, next close 116 with signal
    Hold. *)
Example scenario_C :
  ∃ t, simulate_trades_with_risk
         [srow "ABC" 0 100 1; srow "ABC" tick 116 0] 1000 default_config = Ok [t]
       ∧ t_exit_reason t = "Stop gain raised"
       ∧ t_return_pct t == 16.
Proof.
  eexists. split; [vm_compute; reflexivity|]. by split.
Qed.

(** Scenario D, continued past the tie: "A" takes all the cash, the Buy of
    "B" on the next bar opens nothing while "A" is held. *)
Example scenario_D :
  ∃ st p, simulate_state tie_bars 1000 default_config = Ok st
          ∧ held_positions st = {[ "A" := p ]}
          ∧ p_cash p = 1000
          ∧ trades st = [].
Proof.
  eexists. eexists. split; [vm_compute; reflexivity|]. by split_and!.
Qed.

(** A qualifying Buy on a bar whose close is 0 raises in the share
    computation. *)
Example zero_close_buy_raises :
  simulate_trades_with_risk [srow "ABC" 0 0 1] 1000 default_config
  = Raise ZeroDivisionError.
Proof. reflexivity. Qed.

(** * Further properties of the simulator *)

(** ** The returned ledger *)

Lemma stable_sort_sorted_id {A : Type} (leb : A → A → bool) (l : list A) :
  StronglySorted (λ x y, leb x y = true) l → stable_sort leb l = l.
Proof.
  induction 1 as [|x l Hs IH Hx]; [done|].
  cbn [stable_sort foldr]. fold (stable_sort leb l). rewrite IH.
  destruct l as [|y l]; [done|]. cbn [insert_by].
  apply Forall_cons in Hx as [-> _]. done.
Qed.

(** ** Trades do not overlap *)

Lemma sequential_tail (st : State) (r : SRow) (rows : list SRow) :
  sequential st (r :: rows) → sequential st rows.
Proof.
  intros (H1 & H2 & H3 & H4 & H5). split_and!; try done.
  - intros t Ht. specialize (H4 t Ht). by apply Forall_cons in H4 as [_ ?].
  - intros tk p Hp. specialize (H5 tk p Hp). by apply Forall_cons in H5 as [_ ?].
Qed.

Lemma closed_sequential (config : Config) (st : State) (r : SRow)
    (rows : list SRow) (p : Position) :
  Forall (ts_le r) rows → single_position st →
  held_positions st !! row_ticker r = Some p →
  sequential st (r :: rows) → sequential (closed config st r p) (r :: rows).
Proof.
  intros Hlater HI Hl (H1 & H2 & H3 & H4 & H5).
  assert (delete (row_ticker r) (held_positions st) = ∅) as Hempty.
  { destruct HI as [HI|[HI _]]; [by rewrite HI in Hl|].
    apply map_size_empty_iff.
    rewrite map_size_delete_Some by eauto. by rewrite HI. }
  unfold sequential. cbn [trades held_positions closed]. rewrite Hempty.
  split_and!.
  - apply StronglySorted_app_2; [|done|by repeat constructor].
    intros t1 t2 Ht1 Ht2. apply list_elem_of_singleton in Ht2 as ->.
    unfold follows. cbn [t_entry_datetime trade_of]. by eapply H3.
  - apply Forall_app. split; [done|]. constructor; [|constructor].
    cbn [t_entry_datetime t_exit_datetime trade_of].
    specialize (H5 _ p Hl). by apply Forall_cons in H5 as [? _].
  - intros t tk q _ Hq. by rewrite lookup_empty in Hq.
  - intros t Ht. apply elem_of_app in Ht as [Ht|Ht]; [by apply H4|].
    apply list_elem_of_singleton in Ht as ->. cbn [t_exit_datetime trade_of].
    constructor; [lia|]. exact Hlater.
  - intros tk q Hq. by rewrite lookup_empty in Hq.
Qed.

Lemma opened_sequential (st : State) (r : SRow) (rows : list SRow) :
  Forall (ts_le r) rows →
  sequential st (r :: rows) → sequential (opened st r) rows.
Proof.
  intros Hlater (H1 & H2 & H3 & H4 & H5).
  unfold sequential. cbn [trades held_positions opened]. split_and!; try done.
  - intros t tk q Ht Hq.
    apply lookup_insert_Some in Hq as [[_ <-]|[_ Hq]]; [|by eapply H3].
    cbn [p_entry_datetime position_of].
    specialize (H4 t Ht). by apply Forall_cons in H4 as [? _].
  - intros t Ht. specialize (H4 t Ht). by apply Forall_cons in H4 as [_ ?].
  - intros tk q Hq.
    apply lookup_insert_Some in Hq as [[_ <-]|[_ Hq]].
    + exact Hlater.
    + specialize (H5 tk q Hq). by apply Forall_cons in H5 as [_ ?].
Qed.

Lemma step_sequential (config : Config) (st st' : State) (r : SRow)
    (rows : list SRow) :
  Forall (ts_le r) rows → single_position st → sequential st (r :: rows) →
  step config st r = Ok st' → sequential st' rows.
Proof.
  intros Hlater HI Hseq Hs. apply step_inv in Hs as (st1 & Hx & He).
  assert (sequential st1 (r :: rows)) as Hseq1.
  { apply exit_step_inv in Hx as [[_ ->]|(p & Hl & _ & ->)]; [done|].
    destruct (exit_fires config r p); [|done]. by apply closed_sequential. }
  apply entry_step_inv in He as [[_ ->]|(_ & _ & ->)].
  - by eapply sequential_tail.
  - by apply opened_sequential.
Qed.

Lemma run_sequential (config : Config) (rows : list SRow) :
  ∀ st st', StronglySorted ts_le rows → single_position st →
            sequential st rows → run config st rows = Ok st' →
            sequential st' [].
Proof.
  induction rows as [|r rows IH]; intros st st' Hs HI Hseq Hrun.
  - by injection Hrun as <-.
  - simpl in Hrun. destruct (step config st r) as [st1|e] eqn:Hstep; [|done].
    apply StronglySorted_inv in Hs as [Hs Hlater].
    eapply IH; [done| | |exact Hrun].
    + by eapply step_single_position.
    + by eapply step_sequential.
Qed.

Lemma StronglySorted_weaken {A : Type} (R1 R2 : A → A → Prop) (l : list A) :
  (∀ x y, R1 x y → R2 x y) → StronglySorted R1 l → StronglySorted R2 l.
Proof.
  intros HR. induction 1 as [|x l Hs IH Hx]; constructor; [done|].
  eapply Forall_impl; [exact Hx|]. intros y. apply HR.
Qed.

Lemma sequential_entry_sorted (st : State) (rows : list SRow) :
  sequential st rows →
  StronglySorted (λ t1 t2, entry_leb t1 t2 = true) (trades st).
Proof.
  intros (H1 & H2 & _). induction H1 as [|t ts Hs IH Ht]; [constructor|].
  apply Forall_cons in H2 as [Hte H2]. constructor; [by apply IH|].
  eapply Forall_impl; [exact Ht|]. intros t2 Hf.
  unfold follows in Hf. unfold entry_leb. lia.
Qed.

Lemma follows_forward_strict (ts : list Trade) :
  StronglySorted follows ts →
  Forall (λ t, (t_entry_datetime t < t_exit_datetime t)%Z) ts →
  StronglySorted (λ t1 t2, (t_entry_datetime t1 < t_entry_datetime t2)%Z) ts.
Proof.
  induction 1 as [|t ts Hs IH Ht]; intros Hf; [constructor|].
  apply Forall_cons in Hf as [Hlt Hf]. constructor; [by apply IH|].
  eapply Forall_impl; [exact Ht|]. intros t2 H2. unfold follows in H2. lia.
Qed.

(** Lines 62-101: however the bars fall, the trades of a run never overlap:
    in the order they are recorded, each trade is entered no earlier than
    the one before it was exited, and no trade exits before it was entered;
    so they are recorded in ascending entry order. *)
Theorem trades_never_overlap (df : list SRow) (initial_cash : Q)
    (config : Config) (st : State) :
  simulate_state df initial_cash config = Ok st →
  StronglySorted follows (trades st)
  ∧ Forall (λ t, (t_entry_datetime t ≤ t_exit_datetime t)%Z) (trades st)
  ∧ StronglySorted entry_le (trades st).
Proof.
  intros Hrun. unfold simulate_state in Hrun.
  assert (sequential st []) as Hseq.
  { eapply run_sequential; [apply sort_values_ts_sorted| | |exact Hrun].
    - by left.
    - unfold sequential. cbn [trades held_positions init].
      split_and!; try by constructor.
      + intros t tk p Ht. by apply elem_of_nil in Ht.
      + intros t Ht. by apply elem_of_nil in Ht.
      + intros tk p Hp. by rewrite lookup_empty in Hp. }
  pose proof (sequential_entry_sorted _ _ Hseq) as Hsorted.
  destruct Hseq as (H1 & H2 & _). split_and!; [done|done|].
  eapply StronglySorted_weaken; [|exact Hsorted].
  intros t1 t2 H. unfold entry_leb in H. unfold entry_le. lia.
Qed.

Lemma trades_never_overlap_witness :
  ∃ st, simulate_state two_ticker_bars 1000 default_config = Ok st
        ∧ length (trades st) = 2%nat
        ∧ StronglySorted follows (trades st).
Proof.
  match goal with
  | |- ∃ st, ?s = _ ∧ _ => destruct s as [st|e] eqn:Hsim
  end; [|vm_compute in Hsim; discriminate].
  exists st. split; [reflexivity|]. split.
  - vm_compute in Hsim. by injection Hsim as <-.
  - exact (proj1 (trades_never_overlap _ _ _ _ Hsim)).
Defined.

(** Lines 62-103: when every (timestamp, ticker) pair occurs once, the
    entry datetimes of the recorded trades are strictly increasing, so the
    final sort changes nothing: the returned ledger is the list of trades in
    the order they were closed. *)
Theorem ledger_in_exit_order (df : list SRow) (initial_cash : Q)
    (config : Config) (l : list Trade) :
  NoDup (key <$> df) →
  simulate_trades_with_risk df initial_cash config = Ok l →
  StronglySorted (λ t1 t2, (t_entry_datetime t1 < t_entry_datetime t2)%Z) l
  ∧ ∃ st, simulate_state df initial_cash config = Ok st ∧ l = trades st.
Proof.
  intros Hnd Hsim. apply simulate_inv in Hsim as (st & Hrun & Hl).
  assert (sequential st []) as Hseq.
  { eapply run_sequential; [apply sort_values_ts_sorted| | |exact Hrun].
    - by left.
    - unfold sequential. cbn [trades held_positions init].
      split_and!; try by constructor.
      + intros t tk p Ht. by apply elem_of_nil in Ht.
      + intros t Ht. by apply elem_of_nil in Ht.
      + intros tk p Hp. by rewrite lookup_empty in Hp. }
  assert (trades_forward st) as Hf.
  { eapply run_trades_forward; [apply sort_values_ts_sorted| | | |exact Hrun].
    - by rewrite sort_values_perm.
    - intros tk p Hp. cbn [held_positions init] in Hp.
      by rewrite lookup_empty in Hp.
    - constructor. }
  assert (l = trades st) as ->.
  { pose proof (sequential_entry_sorted _ _ Hseq) as Hsorted.
    destruct (trades st) as [|t ts] eqn:E; [done|].
    unfold ledger in Hl. injection Hl as <-.
    apply (stable_sort_sorted_id entry_leb (t :: ts) Hsorted). }
  split; [|by exists st].
  destruct Hseq as (H1 & _). apply follows_forward_strict; [done|].
  eapply Forall_impl; [exact Hf|]. by intros t [? _].
Qed.

Lemma ledger_in_exit_order_witness :
  ∃ l st, simulate_trades_with_risk two_ticker_bars 1000 default_config = Ok l
          ∧ simulate_state two_ticker_bars 1000 default_config = Ok st
          ∧ l = trades st.
Proof.
  match goal with
  | |- ∃ l st, ?s = _ ∧ _ => destruct s as [l|e] eqn:Hsim
  end; [|vm_compute in Hsim; discriminate].
  assert (NoDup (key <$> two_ticker_bars)) as Hnd
    by (apply (bool_decide_unpack _); vm_compute; reflexivity).
  destruct (ledger_in_exit_order two_ticker_bars 1000 default_config l Hnd Hsim)
    as (_ & st & Hst & ->).
  by exists (trades st), st.
Defined.

(** ** The order of the input rows does not matter *)

Lemma key_le_antisym (r1 r2 : SRow) :
  key_le r1 r2 → key_le r2 r1 → key r1 = key r2.
Proof.
  unfold key_le. rewrite !key_leb_iff.
  intros [H1|[H1 L1]] [H2|[H2 L2]]; try lia.
  unfold key. f_equal; [done|]. by apply String.leb_antisym.
Qed.

Lemma NoDup_key_inj (l : list SRow) (r1 r2 : SRow) :
  NoDup (key <$> l) → r1 ∈ l → r2 ∈ l → key r1 = key r2 → r1 = r2.
Proof.
  induction l as [|x l IH]; intros Hnd H1 H2 Hk; [by apply elem_of_nil in H1|].
  rewrite fmap_cons in Hnd. apply NoDup_cons in Hnd as [Hx Hnd].
  apply elem_of_cons in H1 as [->|H1], H2 as [->|H2]; try done.
  - exfalso. apply Hx. rewrite Hk. apply list_elem_of_fmap. by exists r2.
  - exfalso. apply Hx. rewrite <- Hk. apply list_elem_of_fmap. by exists r1.
  - by apply IH.
Qed.

Lemma sort_values_of_perm (df1 df2 : list SRow) :
  NoDup (key <$> df1) → df1 ≡ₚ df2 → sort_values df1 = sort_values df2.
Proof.
  intros Hnd Hp.
  apply (StronglySorted_unique_strong key_le);
    [|apply sort_values_sorted|apply sort_values_sorted|].
  - intros r1 r2 H1 H2 Hle1 Hle2.
    apply (NoDup_key_inj df1); [done| | |by apply key_le_antisym].
    + by rewrite sort_values_perm in H1.
    + by rewrite sort_values_perm, <- Hp in H2.
  - by rewrite !sort_values_perm.
Qed.

(** Line 50: when every (timestamp, ticker) pair occurs once, the result
    depends only on which rows the frame holds, not on their order: any
    reordering of the rows gives the same final state and the same ledger. *)
Theorem row_order_irrelevant (df1 df2 : list SRow) (initial_cash : Q)
    (config : Config) :
  NoDup (key <$> df1) → df1 ≡ₚ df2 →
  simulate_state df1 initial_cash config = simulate_state df2 initial_cash config
  ∧ simulate_trades_with_risk df1 initial_cash config
    = simulate_trades_with_risk df2 initial_cash config.
Proof.
  intros Hnd Hp. unfold simulate_trades_with_risk, simulate_state.
  by rewrite (sort_values_of_perm df1 df2 Hnd Hp).
Qed.

Lemma row_order_irrelevant_witness :
  simulate_trades_with_risk two_ticker_bars 1000 default_config
  = simulate_trades_with_risk (reverse two_ticker_bars) 1000 default_config.
Proof.
  apply (row_order_irrelevant two_ticker_bars (reverse two_ticker_bars)).
  - apply (bool_decide_unpack _). vm_compute. reflexivity.
  - by rewrite reverse_Permutation.
Defined.

(** ** The ledger only grows *)

Lemma step_trades_prefix (config : Config) (st st' : State) (r : SRow) :
  step config st r = Ok st' → trades st `prefix_of` trades st'.
Proof.
  intros Hs. apply step_inv in Hs as (st1 & Hx & He).
  assert (trades st `prefix_of` trades st1) as H1.
  { apply exit_step_inv in Hx as [[_ ->]|(p & _ & _ & ->)]; [done|].
    destruct (exit_fires config r p); [|done]. by apply prefix_app_r. }
  by apply entry_step_inv in He as [[_ ->]|(_ & _ & ->)].
Qed.

Lemma run_trades_prefix (config : Config) (rows : list SRow) :
  ∀ st st', run config st rows = Ok st' → trades st `prefix_of` trades st'.
Proof.
  induction rows as [|r rows IH]; intros st st' Hrun.
  - by injection Hrun as <-.
  - simpl in Hrun. destruct (step config st r) as [st1|e] eqn:Hs; [|done].
    etrans; [by eapply step_trades_prefix|by apply IH].
Qed.

(** Lines 55-89: a recorded trade is never changed or removed: the trades
    recorded after any prefix of the bars are an initial segment of the
    trades recorded after the whole run, and there are at most as many
    trades as bars. *)
Theorem ledger_append_only (df pre post : list SRow) (initial_cash : Q)
    (config : Config) (st1 st2 : State) :
  sort_values df = pre ++ post →
  run config (init initial_cash) pre = Ok st1 →
  simulate_state df initial_cash config = Ok st2 →
  trades st1 `prefix_of` trades st2
  ∧ (length (trades st2) ≤ length df)%nat.
Proof.
  intros Hsplit Hpre Hrun. unfold simulate_state in Hrun. split.
  - rewrite Hsplit, run_app, Hpre in Hrun. cbn [mbind result_bind bind] in Hrun.
    by eapply run_trades_prefix.
  - clear Hsplit Hpre.
    assert (∀ rows st st', run config st rows = Ok st' →
              (length (trades st') ≤ length (trades st) + length rows)%nat) as H.
    { clear. induction rows as [|r rows IH]; intros st st' Hrun.
      - injection Hrun as <-. simpl. lia.
      - simpl in Hrun. destruct (step config st r) as [sta|e] eqn:Hs; [|done].
        specialize (IH _ _ Hrun). simpl.
        assert (length (trades sta) ≤ S (length (trades st)))%nat; [|lia].
        apply step_inv in Hs as (stb & Hx & He).
        assert (trades sta = trades stb) as ->
          by by apply entry_step_inv in He as [[_ ->]|(_ & _ & ->)].
        apply exit_step_inv in Hx as [[_ ->]|(p & _ & _ & ->)]; [lia|].
        destruct (exit_fires config r p); [|lia].
        cbn [trades closed]. rewrite length_app. simpl. lia. }
    specialize (H _ _ _ Hrun). simpl in H.
    rewrite (Permutation_length (sort_values_perm df)) in H. lia.
Qed.

Lemma ledger_append_only_witness :
  ∃ st1 st2,
    run default_config (init 1000) (take 2 (sort_values two_ticker_bars)) = Ok st1
    ∧ simulate_state two_ticker_bars 1000 default_config = Ok st2
    ∧ trades st1 `prefix_of` trades st2.
Proof.
  eexists. eexists. split; [vm_compute; reflexivity|].
  split; [vm_compute; reflexivity|].
  apply (ledger_append_only two_ticker_bars
           (take 2 (sort_values two_ticker_bars))
           (drop 2 (sort_values two_ticker_bars)) 1000 default_config).
  - by rewrite take_drop.
  - vm_compute. reflexivity.
  - vm_compute. reflexivity.
Defined.

(** ** Rounding is monotone *)




(** ** Risk labels and recorded returns *)





(** ** Closing and reopening on one bar *)



(** * Further properties of the indicator engine *)

(** ** The warmup rows *)

Lemma filter_take_drop {A : Type} (P : A → Prop) `{!∀ x, Decision (P x)}
    (l : list A) (k : nat) :
  (∀ i x, l !! i = Some x → P x ↔ (k ≤ i)%nat) → filter P l = drop k l.
Proof.
  intros HP. rewrite <- (take_drop k l) at 1. rewrite filter_app.
  assert (filter P (take k l) = []) as ->.
  { assert (Forall (λ x, ¬ P x) (take k l)) as Hf.
    { apply Forall_lookup. intros i x Hi.
      apply lookup_take_Some in Hi as [Hi Hlt].
      rewrite (HP i x Hi). lia. }
    induction Hf as [|x l' Hx _ IH]; [done|].
    by rewrite filter_cons_False. }
  assert (Forall P (drop k l)) as Hf.
  { apply Forall_lookup. intros i x Hi. rewrite lookup_drop in Hi.
    rewrite (HP _ x Hi). lia. }
  simpl. induction Hf as [|x l' Hx _ IH]; [done|].
  rewrite filter_cons_True by done. by rewrite IH.
Qed.

Lemma ma_cell_is_Some (w : nat) (closes : list Q) (i : nat) :
  (1 ≤ w)%nat → (i < length closes)%nat →
  is_Some (round4 (cell (rolling_mean w closes) i)) ↔ (w ≤ i + 1)%nat.
Proof.
  intros Hw Hi. destruct (ma_cell_spec w closes i Hw Hi) as [Hnone Hsome].
  split.
  - intros [m Hm]. destruct (decide (w ≤ i + 1)%nat); [done|].
    rewrite Hnone in Hm by lia. done.
  - intros Hge. destruct (Hsome Hge) as (m & -> & _). by eexists.
Qed.

Lemma group_warmup (ta : TaLib) (sw lw : nat) (group : list Bar) :
  (1 ≤ sw)%nat → (1 ≤ lw)%nat →
  filter (λ r, has_moving_averages r = true)
         (compute_group_indicators ta sw lw group)
  = drop (Nat.max sw lw - 1) (compute_group_indicators ta sw lw group).
Proof.
  intros Hs Hl. apply filter_take_drop. intros i r Hr.
  assert (∃ b, sort_index group !! i = Some b) as [b Hb].
  { apply lookup_lt_is_Some.
    rewrite <- (compute_group_indicators_bars ta sw lw group), length_fmap.
    by eapply lookup_lt_Some. }
  destruct (compute_group_indicators_lookup ta sw lw group i b Hb)
    as (r' & Hr' & _ & Hsm & Hlm).
  rewrite Hr in Hr'. injection Hr' as <-.
  assert (i < length (close <$> sort_index group))%nat as Hi
    by (rewrite length_fmap; by eapply lookup_lt_Some).
  rewrite has_moving_averages_iff, Hsm, Hlm.
  rewrite (ma_cell_is_Some sw _ i Hs Hi), (ma_cell_is_Some lw _ i Hl Hi). lia.
Qed.

Lemma filter_join {A : Type} (P : A → Prop) `{!∀ x, Decision (P x)}
    (ls : list (list A)) :
  filter P (mjoin ls) = mjoin (filter P <$> ls).
Proof.
  induction ls as [|l ls IH]; [done|].
  simpl. by rewrite filter_app, IH.
Qed.

(** ** Tickers are computed independently *)

Lemma filter_all {A : Type} (P : A → Prop) `{!∀ x, Decision (P x)} (l : list A) :
  Forall P l → filter P l = l.
Proof.
  induction 1 as [|x l Hx _ IH]; [done|].
  rewrite filter_cons_True by done. by rewrite IH.
Qed.

Lemma filter_none {A : Type} (P : A → Prop) `{!∀ x, Decision (P x)} (l : list A) :
  Forall (λ x, ¬ P x) l → filter P l = [].
Proof.
  induction 1 as [|x l Hx _ IH]; [done|]. by rewrite filter_cons_False.
Qed.

Lemma group_rows_ticker (ta : TaLib) (sw lw : nat) (group : list Bar)
    (tk : string) :
  Forall (λ b, ticker b = tk) group →
  Forall (λ r, ticker (bar r) = tk) (compute_group_indicators ta sw lw group).
Proof.
  intros Hg.
  assert (Forall (λ b, ticker b = tk)
            (bar <$> compute_group_indicators ta sw lw group)) as Hb.
  { rewrite compute_group_indicators_bars. unfold sort_index.
    by rewrite stable_sort_perm. }
  by apply Forall_fmap in Hb.
Qed.

Lemma join_single {A : Type} (tks : list string) (tk : string) (X : list A) :
  NoDup tks →
  mjoin ((λ k, if decide (k = tk) then X else []) <$> tks)
  = if decide (tk ∈ tks) then X else [].
Proof.
  induction 1 as [|k tks Hk Hnd IH]; [done|].
  transitivity ((if decide (k = tk) then X else [])
                ++ mjoin ((λ k, if decide (k = tk) then X else []) <$> tks));
    [done|].
  rewrite IH. destruct (decide (k = tk)) as [->|Hne].
  - rewrite decide_False by done. rewrite decide_True by (by left).
    by rewrite app_nil_r.
  - simpl. destruct (decide (tk ∈ tks)) as [Hin|Hin].
    + rewrite decide_True; [done|]. by right.
    + rewrite decide_False; [done|]. intros [->|?]%elem_of_cons; done.
Qed.

Lemma indicator_rows_of_ticker (ta : TaLib) (df : list Bar) (config : Config)
    (tk : string) :
  filter (λ r, ticker (bar r) = tk) (indicator_rows ta df config)
  = compute_group_indicators ta (short_window_of config) (long_window_of config)
      (filter (λ b, ticker b = tk) df).
Proof.
  unfold indicator_rows, groupby_apply.
  fold (short_window_of config). fold (long_window_of config).
  set (cgi := compute_group_indicators ta _ _).
  rewrite filter_join, <- list_fmap_compose.
  rewrite (list_fmap_ext _
             (λ k, if decide (k = tk)
                   then cgi (filter (λ b, ticker b = tk) df) else [])).
  - rewrite join_single by apply tickers_NoDup.
    destruct (decide (tk ∈ _)) as [Hin|Hin]; [done|].
    rewrite filter_none; [done|].
    apply Forall_forall. intros b Hb Htk. apply Hin.
    apply tickers_elem, list_elem_of_fmap. by exists b.
  - intros i k _. simpl. destruct (decide (k = tk)) as [->|Hne].
    + apply filter_all, group_rows_ticker.
      apply Forall_forall. by intros b [? _]%list_elem_of_filter.
    + apply filter_none.
      eapply Forall_impl;
        [apply (group_rows_ticker ta _ _ (filter (λ b, ticker b = k) df) k)|].
      * apply Forall_forall. by intros b [? _]%list_elem_of_filter.
      * intros r -> Hr. done.
Qed.

(** Lines 110-132: the indicator rows of a ticker are computed from that
    ticker's bars alone: they are [compute_group_indicators] of the ticker's
    own bars, so two frames that hold the same bars for a ticker give it the
    same indicator rows, whatever other tickers they contain. *)
Theorem indicators_per_ticker (ta : TaLib) (df : list Bar) (config : Config)
    (tk : string) :
  filter (λ r, ticker (bar r) = tk) (indicator_rows ta df config)
  = compute_group_indicators ta (short_window_of config) (long_window_of config)
      (filter (λ b, ticker b = tk) df)
  ∧ ∀ df', filter (λ b, ticker b = tk) df' = filter (λ b, ticker b = tk) df →
           filter (λ r, ticker (bar r) = tk) (indicator_rows ta df' config)
           = filter (λ r, ticker (bar r) = tk) (indicator_rows ta df config).
Proof.
  split; [apply indicator_rows_of_ticker|].
  intros df' Heq. by rewrite !indicator_rows_of_ticker, Heq.
Qed.

Lemma indicators_per_ticker_witness :
  filter (λ r, ticker (bar r) = "ABC")
         (indicator_rows ta_warmup ramp_and_other small_windows)
  = filter (λ r, ticker (bar r) = "ABC")
           (indicator_rows ta_warmup ramp_bars small_windows).
Proof.
  apply (proj2 (indicators_per_ticker ta_warmup ramp_bars small_windows "ABC")).
  vm_compute. reflexivity.
Defined.

(** ** The warmup rows of every ticker *)

(** Lines 113-133: with windows of at least 1, [compute_indicators] drops
    from every ticker exactly its first max(short, long) - 1 bars (in index
    order) and keeps all later ones: the rows returned for a ticker are its
    computed rows without that many leading ones, so a ticker with fewer
    bars than the larger window disappears from the frame. *)
Theorem warmup_rows_dropped (ta : TaLib) (df : list Bar) (config : Config) :
  (1 ≤ short_window_of config)%nat → (1 ≤ long_window_of config)%nat →
  df ≠ [] →
  ∃ out,
    compute_indicators ta df config = Ok out
    ∧ ∀ tk,
        filter (λ r, ticker (bar r) = tk) out
        = drop (warmup config)
            (compute_group_indicators ta (short_window_of config)
               (long_window_of config) (filter (λ b, ticker b = tk) df))
        ∧ length (filter (λ r, ticker (bar r) = tk) out)
          = (length (filter (λ b, ticker b = tk) df) - warmup config)%nat.
Proof.
  intros Hs Hl Hne. destruct df as [|b df]; [done|].
  eexists. split; [reflexivity|]. intros tk.
  assert (filter (λ r, ticker (bar r) = tk)
            (filter (λ r, has_moving_averages r = true)
               (indicator_rows ta (b :: df) config))
          = drop (warmup config)
              (compute_group_indicators ta (short_window_of config)
                 (long_window_of config)
                 (filter (λ b0, ticker b0 = tk) (b :: df)))) as Heq.
  { rewrite list_filter_filter.
    rewrite (list_filter_iff _
               (λ r, has_moving_averages r = true ∧ ticker (bar r) = tk))
      by (intros r; tauto).
    rewrite <- list_filter_filter, indicator_rows_of_ticker.
    by apply group_warmup. }
  split; [exact Heq|]. rewrite Heq, length_drop.
  rewrite <- (length_fmap bar), compute_group_indicators_bars.
  unfold sort_index.
  by rewrite (Permutation_length (stable_sort_perm index_leb _)).
Qed.

Lemma warmup_rows_dropped_witness :
  ∃ out, compute_indicators ta_warmup ramp_and_other small_windows = Ok out
         ∧ length (filter (λ r, ticker (bar r) = "ABC") out) = 2%nat
         ∧ filter (λ r, ticker (bar r) = "XYZ") out = [].
Proof.
  destruct (warmup_rows_dropped ta_warmup ramp_and_other small_windows)
    as (out & Hout & Htk); [vm_compute; lia|vm_compute; lia|done|].
  exists out. split; [exact Hout|]. split.
  - by rewrite (proj2 (Htk "ABC")).
  - apply length_zero_iff_nil. by rewrite (proj2 (Htk "XYZ")).
Defined.

(** * Further properties across the stages *)

(** ** Sell conditions and the simulator *)

(** Lines 198-209 with 62-101: on a bar whose sell condition holds, whatever
    the buy condition, the simulator opens no position, and it closes the
    position of the bar's ticker if there is one. *)
Theorem sell_condition_wins (logic : Logic) (df : list IRow) (config : Config)
    (r : SRow) :
  r ∈ evaluate_signals df logic →
  sell_condition logic (irow r) = true →
  (∀ st, entry_step st r = Ok st)
  ∧ (∀ st p, held_positions st !! row_ticker r = Some p →
             ¬ p_entry_price p == 0 →
             ∃ st', step config st r = Ok st'
                    ∧ held_positions st' !! row_ticker r = None
                    ∧ length (trades st') = S (length (trades st))).
Proof.
  intros Hin Hsell.
  assert (signal r = (-1)%Z) as Hsig.
  { unfold evaluate_signals, compute_signals in Hin.
    rewrite groupby_apply_fmap in Hin.
    apply list_elem_of_fmap in Hin as (ir & -> & _). simpl in *.
    by rewrite Hsell. }
  assert (∀ st, entry_step st r = Ok st) as Hentry.
  { intros st. apply entry_step_skip. unfold entry_fires. by rewrite Hsig. }
  split; [done|]. intros st p Hl Hz.
  exists (closed config st r p). split_and!.
  - unfold step. rewrite (exit_step_held _ _ _ _ Hl Hz).
    unfold exit_fires. rewrite Hsig. simpl. apply Hentry.
  - cbn [held_positions closed]. apply lookup_delete_eq.
  - cbn [trades closed]. rewrite length_app. simpl. lia.
Qed.

Lemma sell_condition_wins_witness :
  ∃ r, r ∈ evaluate_signals
             [mkIRow (mkBar 0 "ABC" 0 1 1 1 1 0) no_indicators]
             (mkLogic (λ _, true) (λ _, true))
       ∧ ∀ st, entry_step st r = Ok st.
Proof.
  eexists. split; [vm_compute; by left|].
  refine (proj1 (sell_condition_wins (mkLogic (λ _, true) (λ _, true))
                   [mkIRow (mkBar 0 "ABC" 0 1 1 1 1 0) no_indicators]
                   default_config _ _ _)).
  - vm_compute. by left.
  - reflexivity.
Defined.

(** ** The columns the simulator reads *)

Lemma key_leb_columns (r1 r2 r1' r2' : SRow) :
  read_columns r1 = read_columns r1' → read_columns r2 = read_columns r2' →
  key_leb r1 r2 = key_leb r1' r2'.
Proof.
  unfold read_columns, key_leb. by intros [= -> -> _ _] [= -> -> _ _].
Qed.

Lemma insert_by_columns (r r' : SRow) (l l' : list SRow) :
  read_columns r = read_columns r' →
  Forall2 (λ a b, read_columns a = read_columns b) l l' →
  Forall2 (λ a b, read_columns a = read_columns b)
          (insert_by key_leb r l) (insert_by key_leb r' l').
Proof.
  intros Hr. induction 1 as [|x y l l' Hxy Hl IH]; simpl.
  - by repeat constructor.
  - rewrite (key_leb_columns r x r' y Hr Hxy).
    destruct (key_leb r' y); by repeat constructor.
Qed.

Lemma sort_values_columns (df df' : list SRow) :
  Forall2 (λ a b, read_columns a = read_columns b) df df' →
  Forall2 (λ a b, read_columns a = read_columns b)
          (sort_values df) (sort_values df').
Proof.
  induction 1 as [|x y l l' Hxy Hl IH]; [constructor|].
  by apply insert_by_columns.
Qed.

Lemma step_columns (config : Config) (st : State) (r r' : SRow) :
  read_columns r = read_columns r' → step config st r = step config st r'.
Proof.
  unfold read_columns. intros [= Hts Htk Hsig Hc].
  unfold step, exit_step, entry_step. by rewrite Hts, Htk, Hsig, Hc.
Qed.

Lemma run_columns (config : Config) (rows rows' : list SRow) :
  Forall2 (λ a b, read_columns a = read_columns b) rows rows' →
  ∀ st, run config st rows = run config st rows'.
Proof.
  induction 1 as [|x y l l' Hxy Hl IH]; intros st; [done|].
  simpl. rewrite (step_columns config st x y Hxy).
  destruct (step config st y); [apply IH|done].
Qed.

Lemma reset_index_columns (df : list SRow) :
  Forall2 (λ a b, read_columns a = read_columns b) (reset_index df) df.
Proof.
  unfold reset_index. apply Forall2_lookup. intros i.
  rewrite list_lookup_imap. destruct (df !! i); by constructor.
Qed.

(** Lines 50-101: the simulator reads only the columns timestamp, ticker,
    signal and close.  Two frames that agree on them row by row give the same
    final state and the same ledger; in particular the [reset_index] of the
    script changes nothing. *)
Theorem simulator_reads_four_columns (df df' : list SRow) (initial_cash : Q)
    (config : Config) :
  Forall2 (λ a b, read_columns a = read_columns b) df df' →
  simulate_state df initial_cash config = simulate_state df' initial_cash config
  ∧ simulate_trades_with_risk df initial_cash config
    = simulate_trades_with_risk df' initial_cash config
  ∧ simulate_trades_with_risk (reset_index df) initial_cash config
    = simulate_trades_with_risk df initial_cash config.
Proof.
  intros H.
  assert (∀ d d', Forall2 (λ a b, read_columns a = read_columns b) d d' →
            simulate_state d initial_cash config
            = simulate_state d' initial_cash config) as Hst.
  { intros d d' Hd. unfold simulate_state.
    by apply run_columns, sort_values_columns. }
  split_and!.
  - by apply Hst.
  - unfold simulate_trades_with_risk. by rewrite (Hst df df').
  - unfold simulate_trades_with_risk.
    by rewrite (Hst _ _ (reset_index_columns df)).
Qed.

Lemma simulator_reads_four_columns_witness :
  simulate_trades_with_risk
    [mkSRow (mkIRow (mkBar 7 "ABC" 0 1 2 3 100 5) no_indicators) false true 1;
     mkSRow (mkIRow (mkBar 9 "ABC" tick 1 2 3 90 5) no_indicators) true false (-1)]
    1000 default_config
  = simulate_trades_with_risk sell_and_stop_bars 1000 default_config.
Proof.
  apply (simulator_reads_four_columns _ sell_and_stop_bars 1000 default_config).
  by repeat constructor.
Defined.

(** ** The script on too little data *)

Lemma join_all_nil {A : Type} (ls : list (list A)) :
  Forall (λ l, l = []) ls → mjoin ls = [].
Proof. induction 1 as [|l ls -> _ IH]; [done|]. by simpl. Qed.

Lemma evaluate_signals_nil (logic : Logic) : evaluate_signals [] logic = [].
Proof. reflexivity. Qed.

(** Lines 212-216: the script cannot report an empty backtest.  On an empty
    bar frame it stops in [dropna] with a missing-column error; on bars that
    give no ticker more than max(short, long) - 1 bars every row is a warmup
    row, no trade is made, and it stops in the final sort of the empty
    ledger. *)
Theorem backtest_needs_data (ta : TaLib) (logic : Logic) (config : Config)
    (capital : Q) :
  backtest ta logic config capital [] = Raise (KeyError "['short_ma', 'long_ma']")
  ∧ ∀ raw : list Bar,
      raw ≠ [] →
      (1 ≤ short_window_of config)%nat → (1 ≤ long_window_of config)%nat →
      (∀ tk, length (filter (λ b, ticker b = tk) raw) ≤ warmup config)%nat →
      backtest ta logic config capital raw = Raise (KeyError "entry_datetime").
Proof.
  split; [done|]. intros raw Hne Hs Hl Hshort.
  assert (compute_indicators ta raw config = Ok []) as Hci.
  { destruct raw as [|b raw]; [done|]. unfold compute_indicators. f_equal.
    unfold indicator_rows, groupby_apply.
    fold (short_window_of config). fold (long_window_of config).
    rewrite filter_join. apply join_all_nil.
    apply Forall_fmap, Forall_fmap, Forall_forall. intros tk _. simpl.
    rewrite group_warmup by done. apply drop_ge.
    rewrite <- (length_fmap bar), compute_group_indicators_bars.
    unfold sort_index.
    rewrite (Permutation_length (stable_sort_perm index_leb _)).
    apply Hshort. }
  unfold backtest. by rewrite Hci.
Qed.

Lemma backtest_needs_data_witness :
  backtest ta_warmup crossover default_config 1000 ramp_bars
  = Raise (KeyError "entry_datetime").
Proof.
  apply (proj2 (backtest_needs_data ta_warmup crossover default_config 1000)).
  - done.
  - vm_compute. lia.
  - vm_compute. lia.
  - intros tk. etrans; [apply length_filter|]. vm_compute. lia.
Defined.

(** * Properties of the data fetcher *)

Lemma fetch_ticker_nonempty (tk : string) (todo : list Agg) :
  todo ≠ [] →
  ∀ aggs _aggs,
    fetch_ticker tk aggs todo _aggs = Some (frame_of tk (aggs ++ todo)).
Proof.
  induction todo as [|a todo IH]; intros Hne aggs old; [done|].
  cbn [fetch_ticker]. destruct todo as [|a' todo].
  - done.
  - rewrite IH by done. by rewrite <- app_assoc.
Qed.

Lemma fetch_all_bound (list_aggs : string → list Agg) (tickers : list string) :
  ∀ df frame, ∃ out,
    fetch_all list_aggs tickers df (Some frame) = Return out
    ∧ df `prefix_of` out.
Proof.
  induction tickers as [|tk tickers IH]; intros df frame.
  - by exists df.
  - cbn [fetch_all].
    destruct (list_aggs tk) as [|a l] eqn:E.
    + cbn [fetch_ticker]. destruct (IH (df ++ frame) frame) as (out & -> & Hp).
      exists out. split; [done|]. etrans; [|exact Hp]. by apply prefix_app_r.
    + rewrite (fetch_ticker_nonempty tk (a :: l)) by done.
      destruct (IH (df ++ frame_of tk ([] ++ a :: l)) (frame_of tk ([] ++ a :: l)))
        as (out & -> & Hp).
      exists out. split; [done|]. etrans; [|exact Hp]. by apply prefix_app_r.
Qed.

(** Lines 181-195: how [get_polygon_data] ends depends only on the ticker
    list and on the first ticker's data.  With no ticker the frame has no
    [timestamp] column (KeyError); when the first ticker has no aggregate the
    variable [_aggs] is read before it was ever assigned
    (UnboundLocalError); in every other case it returns a frame that holds
    at least the first ticker's bars. *)
Theorem fetch_outcomes (list_aggs : string → list Agg) (fromtimestamp : Q → Z) :
  get_polygon_data list_aggs fromtimestamp [] = Throw (PyKeyError "timestamp")
  ∧ ∀ tk tickers,
      (list_aggs tk = [] →
       get_polygon_data list_aggs fromtimestamp (tk :: tickers)
       = Throw (PyUnboundLocalError "_aggs"))
      ∧ (list_aggs tk ≠ [] →
         ∃ out, get_polygon_data list_aggs fromtimestamp (tk :: tickers)
                = Return out
                ∧ (length (list_aggs tk) ≤ length out)%nat).
Proof.
  split; [done|]. intros tk tickers. split.
  - intros Hnil. unfold get_polygon_data. cbn [fetch_all]. by rewrite Hnil.
  - intros Hne. unfold get_polygon_data. cbn [fetch_all].
    rewrite (fetch_ticker_nonempty tk (list_aggs tk) Hne).
    destruct (fetch_all_bound list_aggs tickers
                ([] ++ frame_of tk ([] ++ list_aggs tk))
                (frame_of tk ([] ++ list_aggs tk))) as (out & -> & Hp).
    eexists. split; [reflexivity|].
    unfold sort_index.
    rewrite (Permutation_length (stable_sort_perm index_leb _)), length_fmap.
    apply prefix_length in Hp. simpl in Hp.
    unfold frame_of in Hp. by rewrite length_imap in Hp.
Qed.

Lemma fetch_outcomes_witness :
  get_polygon_data only_A utc ["B"; "A"] = Throw (PyUnboundLocalError "_aggs")
  ∧ ∃ out, get_polygon_data only_A utc ["A"; "B"] = Return out
           ∧ (2 ≤ length out)%nat.
Proof.
  destruct (proj2 (fetch_outcomes only_A utc) "B" ["A"]) as [H1 _].
  destruct (proj2 (fetch_outcomes only_A utc) "A" ["B"]) as [_ H2].
  split; [by apply H1|]. by apply H2.
Defined.

Lemma fetch_all_with_data (list_aggs : string → list Agg) (tickers : list string) :
  Forall (λ tk, list_aggs tk ≠ []) tickers →
  ∀ df _aggs,
    fetch_all list_aggs tickers df _aggs
    = Return (df ++ mjoin ((λ tk, frame_of tk (list_aggs tk)) <$> tickers)).
Proof.
  induction 1 as [|tk tickers Htk _ IH]; intros df old.
  - simpl. by rewrite app_nil_r.
  - cbn [fetch_all]. rewrite (fetch_ticker_nonempty tk _ Htk).
    rewrite IH. simpl. by rewrite <- app_assoc.
Qed.

(** Lines 181-195: when the provider has data for every requested ticker,
    the returned frame holds exactly the aggregates of the tickers, each row
    carrying its ticker, its converted timestamp and its position among the
    ticker's aggregates as index label, in ascending label order. *)
Theorem fetch_with_data (list_aggs : string → list Agg) (fromtimestamp : Q → Z)
    (tickers : list string) :
  tickers ≠ [] →
  Forall (λ tk, list_aggs tk ≠ []) tickers →
  ∃ out,
    get_polygon_data list_aggs fromtimestamp tickers = Return out
    ∧ out ≡ₚ convert_timestamp fromtimestamp
             <$> mjoin ((λ tk, frame_of tk (list_aggs tk)) <$> tickers)
    ∧ StronglySorted (λ b1 b2, (index b1 ≤ index b2)%Z) out.
Proof.
  intros Hne Hall. unfold get_polygon_data.
  rewrite (fetch_all_with_data list_aggs tickers Hall).
  destruct tickers as [|tk tickers]; [done|].
  eexists. split; [reflexivity|]. split.
  - unfold sort_index. by rewrite stable_sort_perm.
  - apply (stable_sort_ssorted index_leb).
    + intros x y z. lia.
    + intros x y H. unfold index_leb in H. lia.
    + intros x y H. unfold index_leb in H. lia.
Qed.

Lemma fetch_with_data_witness :
  ∃ out, get_polygon_data (λ _, two_aggs) utc ["A"; "B"] = Return out
         ∧ length out = 4%nat.
Proof.
  destruct (fetch_with_data (λ _, two_aggs) utc ["A"; "B"])
    as (out & Hout & Hperm & _); [done|by repeat constructor|].
  exists out. split; [exact Hout|].
  by rewrite (Permutation_length Hperm).
Defined.

(** ** A ticker without data *)

Lemma fetch_all_stale (list_aggs : string → list Agg) (t1 t2 : string)
    (pre post : list string) :
  list_aggs t2 = [] →
  ∀ df _aggs,
    fetch_all list_aggs (pre ++ t1 :: t2 :: post) df _aggs
    = fetch_all list_aggs (pre ++ t1 :: t1 :: post) df _aggs.
Proof.
  intros H2. induction pre as [|tk pre IH]; intros df old.
  - cbn [app fetch_all]. rewrite H2. cbn [fetch_ticker].
    destruct (fetch_ticker t1 [] (list_aggs t1) old) as [frame|] eqn:E; [|done].
    destruct (list_aggs t1) as [|a l] eqn:E1.
    + done.
    + rewrite (fetch_ticker_nonempty t1 (a :: l)) in E by done.
      rewrite (fetch_ticker_nonempty t1 (a :: l)) by done. by injection E as <-.
  - cbn [app fetch_all].
    destruct (fetch_ticker tk [] (list_aggs tk) old); [apply IH|done].
Qed.

Lemma fetch_all_reaches (list_aggs : string → list Agg) (pre rest : list string) :
  ∀ df _aggs out,
    fetch_all list_aggs (pre ++ rest) df _aggs = Return out →
    ∃ df' _aggs', fetch_all list_aggs rest df' _aggs' = Return out.
Proof.
  induction pre as [|tk pre IH]; intros df old out H; [by eauto|].
  cbn [app fetch_all] in H.
  destruct (fetch_ticker tk [] (list_aggs tk) old); [by eapply IH|done].
Qed.

Lemma fetch_all_prefix (list_aggs : string → list Agg) (tickers : list string) :
  ∀ df _aggs out,
    fetch_all list_aggs tickers df _aggs = Return out → df `prefix_of` out.
Proof.
  induction tickers as [|tk tickers IH]; intros df old out H.
  - by injection H as <-.
  - cbn [fetch_all] in H.
    destruct (fetch_ticker tk [] (list_aggs tk) old) as [frame|]; [|done].
    etrans; [|by eapply IH]. by apply prefix_app_r.
Qed.

(** Lines 185-192: [_aggs] survives from one ticker to the next, so a ticker
    for which the provider yields nothing is not skipped: the frame of the
    ticker before it is concatenated a second time.  The fetch behaves
    exactly as if the previous ticker had been requested twice, and when the
    previous ticker has data the returned frame holds a (timestamp, ticker)
    pair twice. *)
Theorem empty_ticker_repeats_previous (list_aggs : string → list Agg)
    (fromtimestamp : Q → Z) (t1 t2 : string) (pre post : list string) :
  list_aggs t2 = [] →
  get_polygon_data list_aggs fromtimestamp (pre ++ t1 :: t2 :: post)
  = get_polygon_data list_aggs fromtimestamp (pre ++ t1 :: t1 :: post)
  ∧ (list_aggs t1 ≠ [] →
     ∀ out, get_polygon_data list_aggs fromtimestamp (pre ++ t1 :: t2 :: post)
            = Return out →
            ¬ NoDup (bar_key <$> out)).
Proof.
  intros H2.
  assert (get_polygon_data list_aggs fromtimestamp (pre ++ t1 :: t2 :: post)
          = get_polygon_data list_aggs fromtimestamp (pre ++ t1 :: t1 :: post))
    as Heq.
  { unfold get_polygon_data. rewrite (fetch_all_stale _ _ _ _ _ H2).
    by destruct pre. }
  split; [done|]. intros H1 out Hout. rewrite Heq in Hout.
  unfold get_polygon_data in Hout.
  destruct (fetch_all list_aggs (pre ++ t1 :: t1 :: post) [] None)
    as [df|e] eqn:Hf; [|done].
  cbn [mbind pyresult_bind] in Hout.
  assert (out ≡ₚ convert_timestamp fromtimestamp <$> df) as Hperm.
  { destruct pre; injection Hout as <-; unfold sort_index;
      by rewrite stable_sort_perm. }
  apply fetch_all_reaches in Hf as (df' & old & Hf).
  cbn [fetch_all] in Hf. rewrite !(fetch_ticker_nonempty t1 _ H1) in Hf.
  apply fetch_all_prefix in Hf as [rest ->].
  destruct (list_aggs t1) as [|a l] eqn:E; [done|].
  set (b := convert_timestamp fromtimestamp
              {| index := 0; ticker := t1; timestamp := a_timestamp a;
                 open := a_open a; high := a_high a; low := a_low a;
                 close := a_close a; volume := a_volume a |}).
  intros Hnd.
  pose proof (fmap_Permutation bar_key _ _ Hperm) as Hp2.
  rewrite Hp2 in Hnd. clear Hp2 Hperm Hout.
  change (frame_of t1 ([] ++ a :: l)) with
    ({| index := 0; ticker := t1; timestamp := a_timestamp a;
        open := a_open a; high := a_high a; low := a_low a;
        close := a_close a; volume := a_volume a |}
       :: imap (λ i a0,
                  {| index := Z.of_nat (S i); ticker := t1;
                     timestamp := a_timestamp a0; open := a_open a0;
                     high := a_high a0; low := a_low a0; close := a_close a0;
                     volume := a_volume a0 |}) l) in Hnd.
  rewrite !fmap_app, !fmap_cons in Hnd. fold b in Hnd.
  rewrite <- !app_assoc in Hnd.
  apply NoDup_app in Hnd as (_ & _ & Hnd).
  apply NoDup_app in Hnd as (_ & Hnd & _).
  apply (Hnd (bar_key b)); [by left|].
  apply elem_of_app. left. by left.
Qed.

Lemma empty_ticker_repeats_previous_witness :
  get_polygon_data only_A utc ["A"; "B"] = get_polygon_data only_A utc ["A"; "A"]
  ∧ ∃ out, get_polygon_data only_A utc ["A"; "B"] = Return out
           ∧ ¬ NoDup (bar_key <$> out).
Proof.
  destruct (empty_ticker_repeats_previous only_A utc "A" "B" [] [] eq_refl)
    as [Heq Hdup].
  split; [exact Heq|].
  destruct (get_polygon_data only_A utc ([] ++ ["A"; "B"])) as [out|e] eqn:E;
    [|vm_compute in E; discriminate].
  exists out. split; [exact E|]. by apply Hdup.
Defined.

(** * Properties of the configuration loader *)

Lemma pybind_Return {A B : Type} (r : pyresult A) (k : A → pyresult B) (y : B) :
  (r ≫= k) = Return y ↔ ∃ a, r = Return a ∧ k a = Return y.
Proof.
  destruct r as [a|e]; simpl.
  - split; [by exists a|]. by intros (? & [= <-] & ?).
  - split; [done|]. by intros (? & ? & ?).
Qed.

Lemma py_getitem_Return (v : pyval) (k : string) (x : pyval) :
  py_getitem v k = Return x ↔ ∃ d, v = PyDict d ∧ assoc k d = Some x.
Proof.
  split.
  - destruct v; try done. simpl. destruct (assoc k d) eqn:E; [|done].
    intros [= <-]. by exists d.
  - intros (d & -> & H). simpl. by rewrite H.
Qed.

Lemma py_get_Return (v : pyval) (k : string) (dflt x : pyval) :
  py_get v k dflt = Return x ↔ ∃ d, v = PyDict d ∧ x = default dflt (assoc k d).
Proof.
  split.
  - destruct v; try done. simpl. intros [= <-]. by exists d.
  - by intros (d & -> & ->).
Qed.

Lemma py_strptime_Return (parse : string → option Z) (v x : pyval) :
  py_strptime parse v = Return x
  ↔ ∃ s t, v = PyStr s ∧ parse s = Some t ∧ x = PyDatetime t.
Proof.
  split.
  - destruct v; try done. simpl. destruct (parse s) eqn:E; [|done].
    intros [= <-]. by exists s, z.
  - intros (s & t & -> & H & ->). simpl. by rewrite H.
Qed.

Ltac inv_py :=
  repeat match goal with
  | H : (_ ≫= _) = Return _ |- _ =>
      apply pybind_Return in H as (? & ? & ?)
  | H : py_getitem _ _ = Return _ |- _ =>
      apply py_getitem_Return in H as (? & ? & ?)
  | H : py_get _ _ _ = Return _ |- _ =>
      apply py_get_Return in H as (? & ? & ?)
  | H : py_strptime _ _ = Return _ |- _ =>
      apply py_strptime_Return in H as (? & ? & ? & ? & ?)
  | H : PyDict _ = PyDict _ |- _ => injection H as H
  | H : PyStr _ = PyStr _ |- _ => injection H as H
  | H : Return _ = Return _ |- _ => injection H as H
  end; simplify_eq.

(** Lines 137-152: what a strategy file must contain.  The loader returns
    exactly when the file is an object with [strategy_name], [tickers], a
    [parameters] object holding both windows and two dates that parse, a
    [logic] object holding both conditions, and objects [position_sizing]
    and [risk_management]: the two last sections are required although
    every entry read from them has a default. *)
Theorem load_requirements (parse : string → option Z) (config : pyval) :
  (∃ out, load_strategy_config parse config = Return out)
  ↔ loadable parse config.
Proof.
  split.
  - intros [out H]. unfold load_strategy_config in H. inv_py.
    unfold loadable. by eexists _, _, _, _, _, _, _.
  - intros (d & p & l & ps & rm & s1 & s2 & -> & [name Hn] & [tks Ht] & Hp
            & [sw Hsw] & [lw Hlw] & Hs1 & [t1 Ht1] & Hs2 & [t2 Ht2] & Hl
            & [b Hb] & [sl Hsl] & Hps & Hrm).
    unfold load_strategy_config. simpl.
    rewrite Hn, Ht, Hp. simpl. rewrite Hsw, Hlw, Hs1. simpl. rewrite Ht1, Hs2.
    simpl. rewrite Ht2, Hl. simpl. rewrite Hb, Hsl, Hps, Hrm. simpl.
    by eexists.
Qed.

Lemma load_requirements_witness :
  ∃ out, load_strategy_config parse_two minimal_file = Return out.
Proof.
  apply (proj2 (load_requirements parse_two minimal_file)).
  unfold loadable, minimal_file.
  eexists _, _, _, _, _, _, _.
  split; [reflexivity|].
  split; [by eexists|]. split; [by eexists|]. split; [reflexivity|].
  split; [by eexists|]. split; [by eexists|]. split; [reflexivity|].
  split; [by eexists|]. split; [reflexivity|]. split; [by eexists|].
  split; [reflexivity|]. split; [by eexists|]. split; [by eexists|].
  split; reflexivity.
Defined.

(** Lines 137-174: the dict the loader returns.  It has the eight keys
    name, tickers, params, logic, capital, rebalance, sizing and risk, in
    this order, and so no [description]; [params] holds the file's two
    windows unchanged and the two dates as datetimes; [risk] always holds
    both thresholds, the file's values where given and 0.05 and 0.15
    otherwise; the values are copied without any check of their type. *)
Theorem loaded_config_shape (parse : string → option Z) (config out : pyval) :
  load_strategy_config parse config = Return out →
  ∃ items sw lw t1 t2 sl tp rm,
    out = PyDict items
    ∧ items.*1 = ["name"; "tickers"; "params"; "logic"; "capital";
                  "rebalance"; "sizing"; "risk"]
    ∧ assoc "description" items = None
    ∧ assoc "params" items
      = Some (PyDict [("short_window", sw); ("long_window", lw);
                      ("start_date", PyDatetime t1);
                      ("end_date", PyDatetime t2)])
    ∧ (p ← py_getitem config "parameters"; py_getitem p "short_window")
      = Return sw
    ∧ (p ← py_getitem config "parameters"; py_getitem p "long_window")
      = Return lw
    ∧ assoc "risk" items
      = Some (PyDict [("stop_loss", sl); ("take_profit", tp)])
    ∧ py_getitem config "risk_management" = Return (PyDict rm)
    ∧ sl = default (PyFloat (5 # 100)) (assoc "stop_loss_pct" rm)
    ∧ tp = default (PyFloat (15 # 100)) (assoc "take_profit_pct" rm)
    ∧ assoc "capital" items
      = Some (default (PyInt 100000)
                (d ← match config with PyDict d => Some d | _ => None end;
                 assoc "capital" d)).
Proof.
  intros H. unfold load_strategy_config in H. inv_py.
  eexists _, _, _, _, _, _, _, _.
  split; [reflexivity|]. simpl.
  match goal with
  | Hp : assoc "parameters" _ = Some _,
    Hr : assoc "risk_management" _ = Some _ |- _ => rewrite Hp, Hr
  end. simpl.
  match goal with
  | Hs : assoc "short_window" _ = Some _,
    Hl : assoc "long_window" _ = Some _ |- _ => rewrite Hs, Hl
  end.
  by split_and!.
Qed.

Lemma loaded_config_shape_witness :
  ∃ out items,
    load_strategy_config parse_two minimal_file = Return out
    ∧ out = PyDict items
    ∧ assoc "risk" items
      = Some (PyDict [("stop_loss", PyFloat (5 # 100));
                      ("take_profit", PyFloat (15 # 100))])
    ∧ assoc "description" items = None.
Proof.
  destruct (load_strategy_config parse_two minimal_file) as [out|e] eqn:E;
    [|vm_compute in E; discriminate].
  destruct (loaded_config_shape parse_two minimal_file out E)
    as (items & sw & lw & t1 & t2 & sl & tp & rm
        & -> & _ & Hd & _ & _ & _ & Hr & Hrm & -> & -> & _).
  exists (PyDict items), items. split; [reflexivity|]. split; [reflexivity|].
  split; [|exact Hd].
  vm_compute in Hrm. injection Hrm as <-. exact Hr.
Defined.

(** * Properties of the report generator *)

(** ** The displayed exit reason *)

Lemma string_length_append (s1 s2 : string) :
  String.length (String.append s1 s2) = (String.length s1 + String.length s2)%nat.
Proof.
  induction s1 as [|c s1 IH]; [done|].
  change (S (String.length (String.append s1 s2))
          = S (String.length s1 + String.length s2)).
  by rewrite IH.
Qed.

Lemma string_length_substring (n : nat) (s : string) :
  String.length (String.substring 0 n s) = Nat.min n (String.length s).
Proof.
  revert s. induction n as [|n IH]; intros [|c s]; try done.
  cbn [String.substring String.length]. by rewrite IH.
Qed.

(** Line 67 with lines 82-86: the exit reason shown in the table never has
    more than 43 characters; a text of up to 43 characters is shown as it
    is, a longer one as its first 40 characters and an ellipsis.  The three
    reasons the simulator writes are short enough, so no exit reason of a
    ledger it returned is ever cut. *)
Theorem exit_reason_display :
  (∀ s, (String.length (display_exit_reason s) ≤ 43)%nat
        ∧ ((String.length s ≤ 43)%nat → display_exit_reason s = s)
        ∧ ((43 < String.length s)%nat →
           display_exit_reason s = String.append (String.substring 0 40 s) "..."
           ∧ String.length (display_exit_reason s) = 43%nat))
  ∧ (∀ df initial_cash config l t,
       simulate_trades_with_risk df initial_cash config = Ok l →
       t ∈ l →
       display_exit_reason (t_exit_reason t) = t_exit_reason t).
Proof.
  split.
  - intros s. unfold display_exit_reason.
    destruct (43 <? String.length s)%nat eqn:E.
    + apply Nat.ltb_lt in E.
      assert (String.length (String.append (String.substring 0 40 s) "...")
              = 43%nat) as Hlen.
      { rewrite string_length_append, string_length_substring.
        cbn [String.length]. lia. }
      split_and!; [lia|lia|done].
    + apply Nat.ltb_ge in E. split_and!; [done|done|lia].
  - intros df ic config l t Hsim Hin.
    apply simulate_inv in Hsim as (st & Hrun & Hl).
    assert (Forall (λ t, t_exit_reason t ∈ exit_labels) (trades st)) as Hf.
    { eapply (run_invariant (λ st, Forall _ (trades st))); [| |exact Hrun].
      - intros ?????. by eapply step_trades_labelled.
      - constructor. }
    rewrite Forall_forall in Hf.
    specialize (Hf t (ledger_elem _ _ _ Hl Hin)).
    unfold exit_labels in Hf.
    repeat (apply elem_of_cons in Hf as [->|Hf]; [done|]).
    by apply elem_of_nil in Hf.
Qed.

Lemma exit_reason_display_witness :
  display_exit_reason "Stop loss raised" = "Stop loss raised"
  ∧ String.length
      (display_exit_reason "an exit reason that runs to more than 43 characters")
    = 43%nat.
Proof.
  destruct (proj1 exit_reason_display "Stop loss raised") as (_ & H1 & _).
  destruct (proj1 exit_reason_display
              "an exit reason that runs to more than 43 characters")
    as (_ & _ & H2).
  split; [apply H1; vm_compute; lia|apply H2; vm_compute; lia].
Defined.

(** ** What the report needs from the configuration *)

Lemma py_number_Return (v : pyval) (q : Q) :
  py_number v = Return q → v ≠ PyStr "N/A" ∧ v ≠ PyNone.
Proof. by destruct v. Qed.

Lemma py_date_Return (fmt : Formatter) (v : pyval) (s : string) :
  py_date fmt v = Return s → ∃ t, v = PyDatetime t.
Proof. destruct v; try done. by eexists. Qed.

(** Lines 21-35: the report returns only for a configuration dict whose
    [params] hold datetimes under [start_date] and [end_date] and whose
    [risk] holds numbers under [stop_loss] and [take_profit]: the fallbacks
    [None] and 'N/A' of these four reads are never printed, a missing entry
    makes the report raise instead. *)
Theorem report_needs_dates_and_thresholds (fmt : Formatter)
    (sim_df : list Trade) (config : pyval) (calls : list pdf_call) :
  generate_pdf_report fmt sim_df config = Return calls →
  ∃ d params risk t1 t2 sl tp,
    config = PyDict d
    ∧ assoc "params" d = Some (PyDict params)
    ∧ assoc "start_date" params = Some (PyDatetime t1)
    ∧ assoc "end_date" params = Some (PyDatetime t2)
    ∧ assoc "risk" d = Some (PyDict risk)
    ∧ assoc "stop_loss" risk = Some sl ∧ is_number sl
    ∧ assoc "take_profit" risk = Some tp ∧ is_number tp.
Proof.
  intros H. unfold generate_pdf_report in H. inv_py.
  repeat match goal with
  | H : py_date _ _ = Return _ |- _ => apply py_date_Return in H as [? H]
  end.
  repeat match goal with
  | H : default (PyDict []) (assoc ?k ?d) = PyDict _ |- _ =>
      destruct (assoc k d) eqn:?; simpl in *; simplify_eq
  end.
  all: repeat match goal with
  | H : default PyNone (assoc ?k ?d) = PyDatetime _ |- _ =>
      destruct (assoc k d) eqn:?; simpl in *; simplify_eq
  | H : py_number (default (PyStr "N/A") (assoc ?k ?d)) = Return _ |- _ =>
      destruct (assoc k d) eqn:?; simpl in *; simplify_eq
  end.
  all: eexists _, _, _, _, _, _, _; split_and!; try done; by eexists.
Qed.

Lemma report_needs_dates_and_thresholds_witness :
  ∃ d risk sl,
    PyDict [("params", PyDict [("start_date", PyDatetime 0);
                               ("end_date", PyDatetime 1)]);
            ("risk", PyDict [("stop_loss", PyFloat (5 # 100));
                             ("take_profit", PyInt 1)])] = PyDict d
    ∧ assoc "risk" d = Some (PyDict risk)
    ∧ assoc "stop_loss" risk = Some sl ∧ is_number sl.
Proof.
  destruct (generate_pdf_report blank_formatter []
              (PyDict [("params", PyDict [("start_date", PyDatetime 0);
                                          ("end_date", PyDatetime 1)]);
                       ("risk", PyDict [("stop_loss", PyFloat (5 # 100));
                                        ("take_profit", PyInt 1)])]))
    as [calls|e] eqn:E; [|vm_compute in E; discriminate].
  destruct (report_needs_dates_and_thresholds _ _ _ _ E)
    as (d & params & risk & t1 & t2 & sl & tp
        & Hd & _ & _ & _ & Hr & Hsl & Hn & _).
  by exists d, risk, sl.
Defined.

(** Lines 137-174 with lines 15-35 of the report: on a configuration
    returned by [load_strategy_config] the report can return only if
    [tickers] can be joined (a list of strings, a string or an object) and
    [capital] and the two risk thresholds are numbers; and since the loader
    does not copy a description, a report that returns has printed the
    fallback on its description line. *)
Theorem report_on_loaded_config (fmt : Formatter) (parse : string → option Z)
    (file cfg : pyval) (sim_df : list Trade) (calls : list pdf_call) :
  load_strategy_config parse file = Return cfg →
  generate_pdf_report fmt sim_df cfg = Return calls →
  ∃ items tickers capital sl tp,
    cfg = PyDict items
    ∧ assoc "tickers" items = Some tickers ∧ joinable tickers
    ∧ assoc "capital" items = Some capital ∧ is_number capital
    ∧ assoc "risk" items = Some (PyDict [("stop_loss", sl); ("take_profit", tp)])
    ∧ is_number sl ∧ is_number tp
    ∧ assoc "description" items = None
    ∧ Cell 0 8 (String.append "Description: " (py_str fmt (PyStr "N/A")))
           false true ∈ calls.
Proof.
  intros H Hgen. unfold load_strategy_config in H. inv_py.
  eexists _, _, _, _, _. split; [reflexivity|].
  unfold generate_pdf_report in Hgen. unfold joinable, is_number.
  cbn [py_get assoc String.eqb Ascii.eqb Bool.eqb default from_option id
       mbind pyresult_bind py_date] in Hgen |- *.
  match type of Hgen with
  | context [py_join ", " ?v] =>
      destruct (py_join ", " v) as [s|e0] eqn:Ej; [|done]
  end.
  match type of Hgen with
  | context [py_number (default (PyInt 100000) ?c)] =>
      destruct (py_number (default (PyInt 100000) c)) as [qc|e1] eqn:Ec; [|done]
  end.
  match type of Hgen with
  | context [py_number (default (PyFloat (5 # 100)) ?c)] =>
      destruct (py_number (default (PyFloat (5 # 100)) c)) as [qs|e2] eqn:Es;
        [|done]
  end.
  match type of Hgen with
  | context [py_number (default (PyFloat (15 # 100)) ?c)] =>
      destruct (py_number (default (PyFloat (15 # 100)) c)) as [qt|e3] eqn:Et;
        [|done]
  end.
  injection Hgen as <-.
  split_and!; try done; try by eexists.
  do 7 right. by left.
Qed.

Lemma report_on_loaded_config_witness :
  ∃ cfg calls,
    load_strategy_config parse_two minimal_file = Return cfg
    ∧ generate_pdf_report blank_formatter [] cfg = Return calls
    ∧ Cell 0 8 "Description: ?" false true ∈ calls.
Proof.
  destruct (load_strategy_config parse_two minimal_file) as [cfg|e] eqn:E;
    [|vm_compute in E; discriminate].
  destruct (generate_pdf_report blank_formatter [] cfg) as [calls|e] eqn:G;
    [|vm_compute in E; injection E as <-; vm_compute in G; discriminate].
  destruct (report_on_loaded_config blank_formatter parse_two minimal_file cfg
              [] calls E G)
    as (items & tickers & capital & sl & tp & _ & _ & _ & _ & _ & _ & _ & _
        & _ & Hcell).
  by exists cfg, calls.
Defined.

(** * The simulator in double precision

    The statements of this part are about module [Double]: every amount is
    a binary64 number and every operation rounds as Python's does. *)

(** ** Facts about doubles *)

Lemma SFcompare_refl (x : spec_float) : x ≠ S754_nan → SFcompare x x = Some Eq.
Proof.
  destruct x as [s|s| |s m e]; [done|by destruct s|done|]. intros _.
  cbn. rewrite Z.compare_refl.
  assert (Pos.compare_cont Eq m m = Eq) as -> by apply Pos.compare_cont_refl.
  by destruct s.
Qed.

Lemma is_nan_spec (x : float) : is_nan x = true ↔ Prim2SF x = S754_nan.
Proof.
  unfold is_nan. rewrite FloatAxioms.eqb_spec. unfold SFeqb. split.
  - intros H. destruct (Prim2SF x) as [s|s| |s m e] eqn:E; [| |done|].
    all: by rewrite SFcompare_refl in H.
  - by intros ->.
Qed.

Lemma is_nan_false (x : float) : is_nan x = false ↔ Prim2SF x ≠ S754_nan.
Proof. rewrite <- is_nan_spec. by destruct (is_nan x). Qed.

Lemma sub_diag (x : float) : (x - x)%float = 0%float ∨ is_nan (x - x) = true.
Proof.
  destruct (Prim2SF x) as [s|s| |s m e] eqn:E.
  - left. apply Prim2SF_inj. rewrite FloatAxioms.sub_spec, E. by destruct s.
  - right. apply is_nan_spec. rewrite FloatAxioms.sub_spec, E. by destruct s.
  - right. apply is_nan_spec. by rewrite FloatAxioms.sub_spec, E.
  - left. apply Prim2SF_inj. rewrite FloatAxioms.sub_spec, E.
    unfold SF64sub, SFsub. rewrite Z.sub_diag. reflexivity.
Qed.

Lemma add_nan_l (x y : float) : is_nan x = true → is_nan (x + y) = true.
Proof. rewrite !is_nan_spec, FloatAxioms.add_spec. by intros ->. Qed.

Lemma positive_spec (x : float) :
  (0 <? x)%float = true →
  Prim2SF x = S754_infinity false ∨ ∃ m e, Prim2SF x = S754_finite false m e.
Proof.
  rewrite FloatAxioms.ltb_spec. change (Prim2SF 0) with (S754_zero false).
  destruct (Prim2SF x) as [s|s| |s m e]; try done.
  - destruct s; [done|]. by left.
  - destruct s; [done|]. right. by eexists _, _.
Qed.

Lemma add_zero_l (y : float) : (0 <? 0 + y)%float = true → (0 + y)%float = y.
Proof.
  intros H. apply Prim2SF_inj. apply positive_spec in H. revert H.
  rewrite FloatAxioms.add_spec. change (Prim2SF 0) with (S754_zero false).
  destruct (Prim2SF y) as [s|s| |s m e]; try done.
  destruct s; cbn; intros [|(? & ? & ?)]; done.
Qed.

(** ** The loop body, case by case *)

Section DoubleLoop.
Import Double.
Variable total_seconds : Z → float.

Lemma double_exit_step_inv (config : Config) (st st' : State) (row : Row) :
  exit_step total_seconds config st row = Ok st' →
  (held_positions st !! ticker row = None ∧ st' = st)
  ∨ ∃ p, held_positions st !! ticker row = Some p
         ∧ is_zero (p_entry_price p) = false
         ∧ st' = if exit_fires config row p
                 then closed total_seconds config st row p else st.
Proof.
  unfold exit_step. intros H.
  destruct (held_positions st !! ticker row) as [p|] eqn:Hl; [|left; by injection H].
  right. exists p. split; [done|]. unfold py_div in H.
  destruct (is_zero (p_entry_price p)) eqn:Hz; [done|]. split; [done|].
  cbn [mbind result_bind bind] in H. fold (pnl_pct_of row p) in H.
  fold (exit_fires config row p) in H.
  destruct (exit_fires config row p); by injection H.
Qed.

Lemma double_exit_step_held (config : Config) (st : State) (row : Row)
    (p : Position) :
  held_positions st !! ticker row = Some p →
  is_zero (p_entry_price p) = false →
  exit_step total_seconds config st row
  = Ok (if exit_fires config row p
        then closed total_seconds config st row p else st).
Proof.
  intros Hl Hz. unfold exit_step, py_div. rewrite Hl, Hz.
  cbn [mbind result_bind bind]. fold (pnl_pct_of row p).
  fold (exit_fires config row p). by destruct (exit_fires config row p).
Qed.

Lemma double_entry_step_inv (st st' : State) (row : Row) :
  entry_step st row = Ok st' →
  (entry_fires st row = false ∧ st' = st)
  ∨ (entry_fires st row = true ∧ is_zero (close row) = false
     ∧ st' = opened st row).
Proof.
  unfold entry_step. fold (entry_fires st row). intros H.
  destruct (entry_fires st row); [right|left; split; [done|by injection H]].
  unfold py_div in H. destruct (is_zero (close row)); [done|].
  by injection H as <-.
Qed.

Lemma double_step_inv (config : Config) (st st' : State) (row : Row) :
  step total_seconds config st row = Ok st' →
  ∃ st1, exit_step total_seconds config st row = Ok st1
         ∧ entry_step st1 row = Ok st'.
Proof.
  unfold step. destruct (exit_step total_seconds config st row) as [st1|e]; [|done].
  intros H. by exists st1.
Qed.

Lemma double_run_invariant (I : State → Prop) (config : Config) (rows : list Row) :
  (∀ st st' row, row ∈ rows → I st →
     step total_seconds config st row = Ok st' → I st') →
  ∀ st st', I st → run total_seconds config st rows = Ok st' → I st'.
Proof.
  induction rows as [|row rows IH]; intros Hstep st st' HI Hrun.
  - by injection Hrun as <-.
  - cbn [run] in Hrun.
    destruct (step total_seconds config st row) as [st1|e] eqn:Hs; [|done].
    apply (IH (λ st st' r Hr, Hstep st st' r (list_elem_of_further _ _ _ Hr)) st1);
      [|done].
    apply (Hstep st st1 row); [by left|done|done].
Qed.

(** ** Capital conservation in double precision *)

Lemma accumulated_snoc (ic pnl : float) (log : list float) :
  accumulated ic (log ++ [pnl]) = (accumulated ic log + pnl)%float.
Proof. unfold accumulated. by rewrite fold_left_app. Qed.

Lemma positive_not_nan (x : float) : (0 <? x)%float = true → is_nan x = false.
Proof.
  intros H. apply is_nan_false.
  by destruct (positive_spec x H) as [->|(m & e & ->)].
Qed.

Lemma step_balanced (ic : float) (config : Config) (st st' : State) (row : Row) :
  balanced ic st → step total_seconds config st row = Ok st' → balanced ic st'.
Proof.
  intros HI Hs. apply double_step_inv in Hs as (st1 & Hx & He).
  assert (balanced ic st1) as HI1.
  { apply double_exit_step_inv in Hx as [[_ ->]|(p & Hl & _ & ->)]; [done|].
    destruct (exit_fires config row p); [|done].
    destruct HI as [[Hh0 _]|(tk & p' & Hh0 & Htot & _ & Hcash)].
    { by rewrite Hh0, lookup_empty in Hl. }
    rewrite Hh0 in Hl. apply lookup_singleton_Some in Hl as [-> ->].
    left. cbn [closed held_positions cash pnl_log].
    split; [by rewrite Hh0, delete_singleton_eq|].
    rewrite accumulated_snoc, <- Htot.
    destruct Hcash as [->|Hnan]; [by right; right|]. left. by apply add_nan_l. }
  apply double_entry_step_inv in He as [[_ ->]|(Hf & _ & ->)]; [done|].
  unfold entry_fires in Hf. apply andb_prop in Hf as [Hf Hpos].
  unfold balanced. cbn [opened held_positions cash pnl_log].
  destruct HI1 as [[Hh0 Hcash]|(tk & p & Hh0 & _ & _ & Hcash)].
  - right. eexists _, _. split; [by rewrite Hh0, insert_empty|].
    cbn [p_cash position_of]. split_and!; [|done|].
    + destruct Hcash as [Hnan|[H|H]]; [|done|].
      * by rewrite (positive_not_nan _ Hpos) in Hnan.
      * rewrite H. apply add_zero_l. by rewrite <- H.
    + destruct (sub_diag (cash st1)); [by left|by right].
  - destruct Hcash as [H|H].
    + by rewrite H in Hpos.
    + by rewrite (positive_not_nan _ Hpos) in H.
Qed.

Lemma step_log_matches_double (config : Config) (st st' : State) (row : Row) :
  log_matches st → step total_seconds config st row = Ok st' → log_matches st'.
Proof.
  intros HI Hs. apply double_step_inv in Hs as (st1 & Hx & He).
  assert (log_matches st1) as HI1.
  { apply double_exit_step_inv in Hx as [[_ ->]|(p & _ & _ & ->)]; [done|].
    destruct (exit_fires config row p); [|done].
    unfold log_matches. cbn [trades pnl_log closed].
    apply Forall2_app; [done|]. by repeat constructor. }
  by apply double_entry_step_inv in He as [[_ ->]|(_ & _ & ->)].
Qed.

Lemma run_balanced (ic : float) (config : Config) (rows : list Row) (st : State) :
  run total_seconds config (init ic) rows = Ok st →
  balanced ic st ∧ log_matches st.
Proof.
  intros Hrun. split.
  - eapply (double_run_invariant (balanced ic)); [| |exact Hrun].
    + intros ??? _ ??. by eapply step_balanced.
    + left. split; [done|]. right. by left.
  - eapply (double_run_invariant log_matches); [| |exact Hrun].
    + intros ??? _ ??. by eapply step_log_matches_double.
    + constructor.
Qed.

Lemma add_zero_r_eqb (x : float) :
  is_nan x = false → (x + 0 =? x)%float = true.
Proof.
  intros H. apply is_nan_false in H.
  rewrite FloatAxioms.eqb_spec, FloatAxioms.add_spec.
  change (Prim2SF 0) with (S754_zero false).
  destruct (Prim2SF x) as [s|s| |s m e] eqn:E; [by destruct s| |done|].
  - unfold SFeqb. cbn [SF64add SFadd]. by rewrite SFcompare_refl.
  - unfold SFeqb. cbn [SF64add SFadd]. by rewrite SFcompare_refl.
Qed.

Lemma add_zero_both_eqb (y : float) :
  is_nan (0 + y) = false → (0 + y + 0 =? y)%float = true.
Proof.
  intros H. apply is_nan_false in H. revert H.
  rewrite FloatAxioms.eqb_spec, !FloatAxioms.add_spec.
  change (Prim2SF 0) with (S754_zero false).
  destruct (Prim2SF y) as [s|s| |s m e] eqn:E; [by destruct s| |done|]; intros _.
  - unfold SFeqb. cbn [SF64add SFadd]. by rewrite SFcompare_refl.
  - unfold SFeqb. cbn [SF64add SFadd]. by rewrite SFcompare_refl.
Qed.

Lemma add_zero_positive (c : float) :
  (0 <? c)%float = true → (0 + (c + 0) =? c)%float = true.
Proof.
  intros H. rewrite FloatAxioms.eqb_spec, !FloatAxioms.add_spec.
  change (Prim2SF 0) with (S754_zero false).
  destruct (positive_spec c H) as [->|(m & e & ->)].
  - done.
  - unfold SFeqb. cbn [SF64add SFadd]. by rewrite SFcompare_refl.
Qed.

(** ** Every trade is a round trip between two bars *)

Lemma step_traced (df : list Row) (config : Config) (st st' : State) (row : Row) :
  row ∈ df → traced total_seconds df st →
  step total_seconds config st row = Ok st' → traced total_seconds df st'.
Proof.
  intros Hin [Hpos Htr] Hs. apply double_step_inv in Hs as (st1 & Hx & He).
  assert (traced total_seconds df st1) as [Hpos1 Htr1].
  { apply double_exit_step_inv in Hx as [[_ ->]|(p & Hl & _ & ->)]; [done|].
    destruct (exit_fires config row p); [|done]. split.
    - intros tk q Hq. cbn [closed held_positions] in Hq.
      apply lookup_delete_Some in Hq as [_ Hq]. by apply Hpos.
    - cbn [closed trades]. apply Forall_app. split; [done|].
      apply Forall_singleton.
      destruct (Hpos _ _ Hl) as (entry & He1 & Htk & _ & Hp).
      exists entry, row, (p_cash p). split; [done|]. split; [done|].
      unfold round_trip, trade_of, holding_ticks, pnl_pct_of.
      rewrite Hp. cbn. by split_and!. }
  apply double_entry_step_inv in He as [[_ ->]|(_ & Hz & ->)]; [done|].
  split; [|done].
  intros tk q Hq. cbn [opened held_positions] in Hq.
  apply lookup_insert_Some in Hq as [[<- <-]|[_ Hq]]; [|by apply Hpos1].
  by exists row.
Qed.

End DoubleLoop.


(** ** Rounding at concrete values *)

(** [round] on ties and near-ties of the decimal value: the double written
    2.675 lies below 2.675 and the one written 1.005 below 1.005; 0.125 and
    0.375 are exact and go to the even digit; the sign survives a zero
    result. *)
Example round_ties :
  Double.round 0.125 2 = 0.12%float
  ∧ Double.round 0.375 2 = 0.38%float
  ∧ Double.round 2.675 2 = 2.67%float
  ∧ Double.round 1.005 2 = 1%float
  ∧ Double.round (-0.001) 2 = (-0)%float
  ∧ Double.round 1234.56789 4 = 1234.5679%float
  ∧ Double.round infinity 2 = infinity.
Proof. vm_compute. by split_and!. Qed.

(** The thresholds are compared in double precision: a rise from 1.0 to 1.15
    gives [pnl_pct] = 0.1499999999999999 and does not reach a take profit of
    0.15, while a rise from 30 to 36 reaches a take profit of 0.2. *)
Example thresholds_in_double_precision :
  Double.exit_fires Double.default_config (Double.mkRow 1 "ABC" 0 1.15)
    (Double.position_of (Double.mkRow 0 "ABC" 1 1) 1000) = false
  ∧ Double.exit_fires (Double.mkConfig (Double.mkRisk 0.05 0.2))
      (Double.mkRow 1 "ABC" 0 36)
      (Double.position_of (Double.mkRow 0 "ABC" 1 30) 1000) = true.
Proof. vm_compute. by split. Qed.

(** C1, as stated, fails.  With 1000 of capital and two round trips, 762.33
    to 86.88 and 794.77 to 18.25, no position is open at the end and cash is
    2.6169667491929403; the initial capital plus the sum of the ledger's
    [pnl] column (each rounded to cents) is 2.6200000000000045, and the
    initial capital plus the sum of the unrounded pnl amounts is
    2.6169667491928976: floating-point addition is not associative.  And
    with 1e308 of capital, a hundredfold gain makes cash infinite; the next
    buy invests it and leaves [cash - cash], a NaN, which equals nothing. *)
Lemma ledger_conservation_fails :
  (∃ st l,
     Double.simulate_state Double.seconds_of Double.drawdown_bars 1000
       Double.default_config = Ok st
     ∧ Double.simulate_trades_with_risk Double.seconds_of Double.drawdown_bars
         1000 Double.default_config = Ok l
     ∧ Double.held_positions st = ∅
     ∧ (Double.cash st + Double.allocated (Double.held_positions st)
        =? 1000 + Double.fsum (Double.t_pnl <$> l))%float = false
     ∧ (Double.cash st + Double.allocated (Double.held_positions st)
        =? 1000 + Double.fsum (Double.pnl_log st))%float = false)
  ∧ (∃ st,
       Double.simulate_state Double.seconds_of Double.overflow_bars 1e308
         Double.default_config = Ok st
       ∧ is_nan (Double.cash st) = true
       ∧ (Double.cash st + Double.allocated (Double.held_positions st)
          =? Double.accumulated 1e308 (Double.pnl_log st))%float = false
       ∧ (Double.cash st + Double.allocated (Double.held_positions st)
          =? 1e308 + Double.fsum (Double.pnl_log st))%float = false).
Proof.
  split.
  - eexists. eexists.
    split; [vm_compute; reflexivity|].
    split; [vm_compute; reflexivity|].
    split; [reflexivity|].
    split; vm_compute; reflexivity.
  - eexists. split; [vm_compute; reflexivity|].
    split_and!; vm_compute; reflexivity.
Qed.

(** C1 (amended): after every processed bar at most one position is open,
    and cash plus the cash allocated to the open position equals, as Python
    floats compare, the initial capital with the unrounded [pnl] of every
    exit so far added to it one after the other, in exit order and in double
    precision: [((initial_cash + pnl_1) + pnl_2) + ...].  This holds unless
    cash has become a NaN, which equals nothing (as after an amount that
    overflowed to infinity was reinvested).  Each trade record carries its
    [pnl] rounded to 2 decimals. *)
Theorem capital_conservation (total_seconds : Z → float)
    (df pre post : list Double.Row) (initial_cash : float)
    (config : Double.Config) (st : Double.State) :
  Double.sort_values df = pre ++ post →
  Double.run total_seconds config (Double.init initial_cash) pre = Ok st →
  (size (Double.held_positions st) ≤ 1)%nat
  ∧ (is_nan (Double.cash st) = false →
     (Double.cash st + Double.allocated (Double.held_positions st)
      =? Double.accumulated initial_cash (Double.pnl_log st))%float = true)
  ∧ Forall2 (λ t pnl, Double.t_pnl t = Double.round pnl 2)
            (Double.trades st) (Double.pnl_log st).
Proof.
  intros _ Hrun. apply run_balanced in Hrun as [Hb Hl].
  split_and!; [| |done].
  - destruct Hb as [[-> _]|(tk & p & -> & _)].
    + rewrite map_size_empty. lia.
    + by rewrite map_size_singleton.
  - intros Hnan.
    destruct Hb as [[-> Hc]|(tk & p & -> & <- & Hpos & Hc)].
    + unfold Double.allocated. rewrite map_to_list_empty. cbn [foldr].
      destruct Hc as [Hc|[<-|Hc]]; [congruence| |].
      * by apply add_zero_r_eqb.
      * rewrite Hc. apply add_zero_both_eqb. by rewrite <- Hc.
    + unfold Double.allocated. rewrite map_to_list_singleton. cbn [foldr snd].
      destruct Hc as [->|Hc]; [|congruence].
      by apply add_zero_positive.
Qed.

Lemma capital_conservation_witness :
  ∃ st, Double.simulate_state Double.seconds_of Double.drawdown_bars 1000
          Double.default_config = Ok st
        ∧ (size (Double.held_positions st) ≤ 1)%nat
        ∧ (Double.cash st + Double.allocated (Double.held_positions st)
           =? Double.accumulated 1000 (Double.pnl_log st))%float = true.
Proof.
  eexists. split; [vm_compute; reflexivity|].
  destruct (capital_conservation Double.seconds_of Double.drawdown_bars
              (Double.sort_values Double.drawdown_bars) [] 1000
              Double.default_config _
              (eq_sym (app_nil_r _)) eq_refl) as (Hsize & Hcash & _).
  split; [exact Hsize|]. apply Hcash. vm_compute. reflexivity.
Defined.

(** C7, as stated, fails.  Ten million of cash bought at 256 and sold at
    136.23: the record holds [pnl] = -4678515.62, the rounding of
    [pnl_pct * cash] = -4678515.625.  The claimed
    [return_pct / 100 * allocated_cash] is -4678515.63 when [return_pct] is
    the unrounded [pnl_pct * 100] (it evaluates to -4678515.625000001), and
    also when it is evaluated without any rounding error; from the record's
    own 4-decimal [return_pct] it is -4678520.0. *)
Lemma pnl_is_not_return_pct_of_cash :
  ∃ t,
    Double.simulate_trades_with_risk Double.seconds_of Double.fall_bars
      10000000 Double.default_config = Ok [t]
    ∧ let entry := Double.close Double.buy_at_256 in
      let exit := Double.close Double.sell_at_136_23 in
      let return_pct := ((exit - entry) / entry * 100)%float in
      let exact_return_pct :=
        (Double.value exit - Double.value entry) / Double.value entry * 100 in
      (Double.t_pnl t
       =? Double.round (return_pct / 100 * 10000000) 2)%float = false
      ∧ (Double.t_pnl t
         =? Double.of_Q (round (exact_return_pct / 100 * 10000000) 2))%float
        = false
      ∧ (Double.t_pnl t
         =? Double.round (Double.t_return_pct t / 100
                          * Double.t_allocated_cash t) 2)%float = false.
Proof.
  eexists. split; [vm_compute; reflexivity|].
  split_and!; vm_compute; reflexivity.
Qed.

(** C7 (amended): the record appended when a bar closes a position holds
    [return_pct] = round(pnl_pct * 100, 4) and [pnl] = round(pnl_pct *
    allocated cash, 2), where [pnl_pct] = (exit - entry) / entry; every
    operation is a double-precision operation of Python, [pnl] is computed
    from [pnl_pct] itself and not from [return_pct] / 100, prices are
    rounded to 4 and allocated cash to 2 decimals, [holding_ticks] is the
    elapsed seconds divided by 900, and the amount added back to [cash] is
    the allocated cash plus the unrounded pnl.  Every trade of the returned
    ledger is such a record, computed from the closes and timestamps of two
    bars of the input. *)
Theorem trade_arithmetic (total_seconds : Z → float) (config : Double.Config) :
  (∀ (st : Double.State) (row : Double.Row) (p : Double.Position),
     Double.held_positions st !! Double.ticker row = Some p →
     is_zero (Double.p_entry_price p) = false →
     Double.exit_fires config row p = true →
     let pnl_pct :=
       ((Double.close row - Double.p_entry_price p)
        / Double.p_entry_price p)%float in
     ∃ st' t,
       Double.exit_step total_seconds config st row = Ok st'
       ∧ Double.trades st' = Double.trades st ++ [t]
       ∧ Double.t_return_pct t = Double.round (pnl_pct * 100) 4
       ∧ Double.t_pnl t = Double.round (pnl_pct * Double.p_cash p) 2
       ∧ Double.t_entry_price t = Double.round (Double.p_entry_price p) 4
       ∧ Double.t_exit_price t = Double.round (Double.close row) 4
       ∧ Double.t_allocated_cash t = Double.round (Double.p_cash p) 2
       ∧ Double.t_holding_ticks t
         = (total_seconds (Double.timestamp row - Double.p_entry_datetime p)%Z
            / 900)%float
       ∧ Double.cash st'
         = (Double.cash st
            + (Double.p_cash p + pnl_pct * Double.p_cash p))%float)
  ∧ (∀ (df : list Double.Row) (initial_cash : float) (l : list Double.Trade),
       Double.simulate_trades_with_risk total_seconds df initial_cash config
       = Ok l →
       ∀ t, t ∈ l →
         ∃ entry exit alloc,
           entry ∈ df ∧ exit ∈ df
           ∧ Double.round_trip total_seconds entry exit alloc t).
Proof.
  split.
  - intros st row p Hl Hz Hfire pnl_pct.
    exists (Double.closed total_seconds config st row p),
           (Double.trade_of total_seconds config row p).
    split; [by rewrite (double_exit_step_held _ _ _ _ _ Hl Hz), Hfire|].
    by split_and!.
  - intros df ic l Hsim t Ht. unfold Double.simulate_trades_with_risk in Hsim.
    destruct (Double.simulate_state total_seconds df ic config) as [st|e] eqn:Hrun;
      [|done].
    cbn [mbind result_bind bind] in Hsim.
    assert (Double.traced total_seconds df st) as [_ Htr].
    { eapply (double_run_invariant total_seconds
                (Double.traced total_seconds df)); [| |exact Hrun].
      - intros st0 st1 row Hin. apply step_traced.
        by rewrite <- (stable_sort_perm Double.key_leb df).
      - split; [|constructor].
        intros tk p Hp. cbn [Double.init Double.held_positions] in Hp.
        by rewrite lookup_empty in Hp. }
    destruct (Double.trades st) as [|t0 ts] eqn:E; [done|].
    injection Hsim as <-.
    rewrite (stable_sort_perm Double.entry_leb (t0 :: ts)) in Ht.
    rewrite Forall_forall in Htr. by apply Htr.
Qed.

Lemma trade_arithmetic_witness :
  (∃ st' t,
     Double.exit_step Double.seconds_of Double.default_config
       Double.long_at_256 Double.sell_at_136_23 = Ok st'
     ∧ Double.t_return_pct t = (-46.7852)%float
     ∧ Double.t_pnl t = (-4678515.62)%float
     ∧ Double.cash st' = 5321484.375%float)
  ∧ (∃ t entry exit alloc,
       Double.simulate_trades_with_risk Double.seconds_of Double.fall_bars
         10000000 Double.default_config = Ok [t]
       ∧ entry ∈ Double.fall_bars ∧ exit ∈ Double.fall_bars
       ∧ Double.round_trip Double.seconds_of entry exit alloc t).
Proof.
  split.
  - destruct (proj1 (trade_arithmetic Double.seconds_of Double.default_config)
                Double.long_at_256 Double.sell_at_136_23
                (Double.position_of Double.buy_at_256 10000000)
                eq_refl eq_refl eq_refl)
      as (st' & t & Hx & _ & Hret & Hpnl & _ & _ & _ & _ & Hcash).
    exists st', t. split; [exact Hx|]. split_and!.
    + etrans; [exact Hret|]. vm_compute. reflexivity.
    + etrans; [exact Hpnl|]. vm_compute. reflexivity.
    + etrans; [exact Hcash|]. vm_compute. reflexivity.
  - destruct (Double.simulate_trades_with_risk Double.seconds_of
                Double.fall_bars 10000000 Double.default_config)
      as [l|e] eqn:Hsim; [|vm_compute in Hsim; discriminate].
    destruct l as [|t [|t' l]]; [vm_compute in Hsim; discriminate| |
                                 vm_compute in Hsim; discriminate].
    destruct (proj2 (trade_arithmetic Double.seconds_of Double.default_config)
                Double.fall_bars 10000000%float [t] Hsim t)
      as (entry & exit & alloc & H1 & H2 & H3); [by left|].
    by exists t, entry, exit, alloc.
Defined.
